(** * FusionFly evaluation engine: a shallow embedding

    The development follows [benchmark/evaluation/metrics.py] (class
    [DataTransformationEvaluator]) and the older module
    [test-files/benchmark_dataset 2/evaluation/metrics.py] (the functions
    [calculate_position_error], [calculate_orientation_error] and
    [calculate_acceleration_error]).

    Numbers.  A JSON number is kept as a canonical rational ([Qc]): every
    Python float is a rational, equality of values is Leibniz equality and
    all comparisons evaluate.  Arithmetic is exact, rounding is not modelled.
    The transcendental library functions that only feed the value of a
    statistic ([np.sqrt], [np.cos], [np.radians], [np.arccos], [np.degrees])
    are taken as parameters; where a property depends on such a function
    (the WGS-84 transform, the Shannon entropy) the computation is carried
    out over the real numbers instead.

    Types.  A record (one element of [gnss_data] / [imu_data]) is a JSON
    object.  [time_unix] is a number when it is present and not [null]; the
    groups [position_lla], [orientation] and [linear_acceleration] are
    objects when present and not [null], and their components are numbers
    when present.  This is the data model of the input files; on other
    JSON types at these places the Python arithmetic or [.get] raises, and
    the accessors below do not describe that.

    Of [_evaluate_temporal_transformation_accuracy] only the timestamp
    error is embedded (the sampling rates are not), and of
    [_evaluate_information_content] and [_evaluate_signal_fidelity] the
    computation for one file pair, the directory walk being left out. *)

From Stdlib Require Import String Ascii List Bool Arith Lia ZArith.
From Stdlib Require Import QArith Qcanon Qcabs Qround.
From Stdlib Require Import Permutation.
From Stdlib Require Import Reals Lra.
Import ListNotations.

Set Warnings "-register-all".
Local Open Scope string_scope.
Local Open Scope list_scope.

(** ** JSON values as [json.load] returns them *)

Inductive json : Type :=
| JNull
| JBool (b : bool)
| JNum (q : Qc)
| JStr (s : string)
| JList (l : list json)
| JDict (d : list (string * json)).

(** A Python [dict] with string keys, in insertion order. *)
Definition dict : Type := list (string * json).

(** [d.get(k)] before the conflation of a missing key with [None]:
    [Some v] is the stored value (possibly [JNull]), [None] is "[k not in d]". *)
Fixpoint dict_get (d : dict) (k : string) : option json :=
  match d with
  | [] => None
  | (k', v) :: d' => if String.eqb k k' then Some v else dict_get d' k
  end.

(** [s.split('.')] *)
Fixpoint split_dot (s : string) : list string :=
  match s with
  | EmptyString => [EmptyString]
  | String c r =>
      if Ascii.eqb c "."%char then EmptyString :: split_dot r
      else match split_dot r with
           | h :: t => String c h :: t
           | [] => [String c EmptyString]
           end
  end.

(** [isinstance(v, dict)] *)
Definition is_dict (v : json) : bool :=
  match v with JDict _ => true | _ => false end.

(** [isinstance(v, (int, float))].  A Python [bool] is an [int], so [True]
    and [False] pass this test. *)
Definition isinstance_int_float (v : json) : bool :=
  match v with
  | JNum _ | JBool _ => true
  | _ => false
  end.

(** The loop of [_get_nested_field]: [None] is the early [return None]. *)
Fixpoint walk_fields (value : json) (fields : list string) : option json :=
  match fields with
  | [] => Some value
  | field :: rest =>
      match value with
      | JDict d =>
          match dict_get d field with
          | Some v => walk_fields v rest
          | None => None
          end
      | _ => None
      end
  end.

(** [DataTransformationEvaluator._get_nested_field].  The result [None] is
    Python's [None]; the function has no raising path. *)
Definition _get_nested_field (data : json) (field_path : string) : option json :=
  match walk_fields data (split_dot field_path) with
  | Some value => if isinstance_int_float value then Some value else None
  | None => None
  end.

(** The number a value stands for in arithmetic ([True] is 1, [False] is 0). *)
Definition num_of (v : json) : Qc :=
  match v with
  | JNum q => q
  | JBool true => 1%Qc
  | _ => 0%Qc
  end.

(** ** Comparisons on exact rationals and on [float('inf')] *)

Definition Qcltb (x y : Qc) : bool :=
  match (x ?= y)%Qc with Lt => true | _ => false end.

(** A time difference: a finite value or [float('inf')]. *)
Inductive ext : Type :=
| Fin (q : Qc)
| Inf.

(** [x < m] for a finite [x]. *)
Definition lt_ext (x : Qc) (m : ext) : bool :=
  match m with
  | Fin q => Qcltb x q
  | Inf => true
  end.

(** [m < tol] for a finite tolerance. *)
Definition ext_lt (m : ext) (tol : Qc) : bool :=
  match m with
  | Fin q => Qcltb q tol
  | Inf => false
  end.

(** ** The temporal aligner *)

(** [entry.get("time_unix")] *)
Definition time_unix (entry : dict) : option Qc :=
  match dict_get entry "time_unix" with
  | Some (JNum t) => Some t
  | _ => None
  end.

(** The inner loop
[[
    for conv_entry in converted_data:
        conv_time = conv_entry.get("time_unix")
        if conv_time is not None and gt_time is not None:
            time_diff = abs(gt_time - conv_time)
            if time_diff < min_time_diff:
                min_time_diff = time_diff
                closest_entry = conv_entry
]]
    with the two loop variables passed explicitly. *)
Fixpoint scan_closest (gt_time : option Qc) (converted_data : list dict)
         (closest_entry : option dict) (min_time_diff : ext)
  : option dict * ext :=
  match converted_data with
  | [] => (closest_entry, min_time_diff)
  | conv_entry :: rest =>
      match time_unix conv_entry, gt_time with
      | Some conv_time, Some gt_t =>
          let time_diff := Qcabs (gt_t - conv_time) in
          if lt_ext time_diff min_time_diff
          then scan_closest gt_time rest (Some conv_entry) (Fin time_diff)
          else scan_closest gt_time rest closest_entry min_time_diff
      | _, _ => scan_closest gt_time rest closest_entry min_time_diff
      end
  end.

(** The aligner: [closest_entry = None], [min_time_diff = float('inf')],
    then the loop. *)
Definition find_closest (gt_time : option Qc) (converted_data : list dict)
  : option dict * ext :=
  scan_closest gt_time converted_data None Inf.

(** [closest_entry is not None and min_time_diff < tol] *)
Definition accepted (tol : Qc) (m : option dict * ext) : option dict :=
  match m with
  | (Some closest_entry, min_time_diff) =>
      if ext_lt min_time_diff tol then Some closest_entry else None
  | (None, _) => None
  end.

(** ** Exceptions *)

Inductive exn : Type :=
| ZeroDivisionError
| AttributeError
| NameError.

Inductive result (A : Type) : Type :=
| Ok (a : A)
| Raise (e : exn).
Arguments Ok {A} a.
Arguments Raise {A} e.

Definition bind {A B : Type} (m : result A) (k : A -> result B) : result B :=
  match m with
  | Ok a => k a
  | Raise e => Raise e
  end.

Notation "x <- m ;; k" := (bind m (fun x => k))
  (at level 61, m at next level, right associativity).

Definition is_ok {A : Type} (m : result A) : bool :=
  match m with Ok _ => true | Raise _ => false end.

(** ** Values of a metric result *)

(** What a statistic field of a result holds: [None], a float or an [int]. *)
Inductive pyval : Type :=
| PyNone
| PyFloat (q : Qc)
| PyInt (n : nat).

(** A leaf result such as [{"mae": ..., "rmse": ..., ...}]: keys in the
    order of the literal. *)
Definition metric_result : Type := list (string * pyval).

Definition keys {V : Type} (d : list (string * V)) : list string := map fst d.

Fixpoint lookup {V : Type} (d : list (string * V)) (k : string) : option V :=
  match d with
  | [] => None
  | (k', v) :: d' => if String.eqb k k' then Some v else lookup d' k
  end.

(** [d[k] = v] on an insertion-ordered dict. *)
Fixpoint assign {V : Type} (d : list (string * V)) (k : string) (v : V)
  : list (string * V) :=
  match d with
  | [] => [(k, v)]
  | (k', v') :: d' =>
      if String.eqb k k' then (k', v) :: d' else (k', v') :: assign d' k v
  end.

(** ** Arithmetic and numpy reductions over exact rationals *)

Local Open Scope Qc_scope.

Definition Qc_of_nat (n : nat) : Qc := Q2Qc (inject_Z (Z.of_nat n)).

Definition Qcmax (x y : Qc) : Qc := if Qcltb x y then y else x.
Definition Qcmin (x y : Qc) : Qc := if Qcltb y x then y else x.

Definition Qcsum (l : list Qc) : Qc := fold_right Qcplus 0 l.

(** [np.mean] *)
Definition np_mean (l : list Qc) : Qc := Qcsum l / Qc_of_nat (length l).

(** [np.max] / [max] and [np.min] / [min] of a non-empty list. *)
Definition np_max (l : list Qc) : Qc :=
  match l with
  | [] => 0
  | x :: r => fold_left Qcmax r x
  end.

Definition np_min (l : list Qc) : Qc :=
  match l with
  | [] => 0
  | x :: r => fold_left Qcmin r x
  end.

Definition square (x : Qc) : Qc := x * x.

(** [a / b] on two Python [int]s: true division, raising on [b = 0]. *)
Definition truediv (a b : nat) : result Qc :=
  match b with
  | O => Raise ZeroDivisionError
  | S _ => Ok (Qc_of_nat a / Qc_of_nat b)
  end.

(** The numpy functions whose value is not a rational function of the
    argument; each maps floats to floats. *)
Record numpy : Type := {
  np_sqrt : Qc -> Qc;
  np_cos : Qc -> Qc;
  np_radians : Qc -> Qc;
  np_degrees : Qc -> Qc;
  np_arccos : Qc -> Qc
}.

(** [np.std]: the square root of the mean squared deviation from the mean. *)
Definition np_std (np : numpy) (l : list Qc) : Qc :=
  let m := np_mean l in
  np_sqrt np (np_mean (map (fun x => square (Qcabs (x - m))) l)).

(** The tolerances written in the source. *)
Definition tol_0_1 : Qc := Q2Qc (1 # 10).
Definition tol_1_0 : Qc := Q2Qc 1.

Definition hundred : Qc := Q2Qc 100.

(** The samples a loop appends: one per element for which the body reaches
    [errors.append], in iteration order. *)
Definition collect {A : Type} (body : A -> option Qc) (l : list A) : list Qc :=
  flat_map (fun a => match body a with Some e => e :: nil | None => nil end) l.

(** [entry.get(k)] for a group such as [position_lla]: [None] when the key
    is missing or [null]. *)
Definition get_group (entry : dict) (k : string) : option dict :=
  match dict_get entry k with
  | Some (JDict d) => Some d
  | _ => None
  end.

(** [d.get(k, 0)] *)
Definition get_or_zero (d : dict) (k : string) : Qc :=
  match dict_get d k with
  | Some v => num_of v
  | None => 0
  end.

(** [[t for t in [entry.get("time_unix") for entry in data] if t is not None]] *)
Definition timestamps (data : list dict) : list Qc := collect time_unix data.

(** [min(l, key=key)] on a non-empty list: the first element whose key is
    minimal. *)
Definition min_by_key (key : Qc -> Qc) (l : list Qc) : Qc :=
  match l with
  | [] => 0
  | x :: r => fold_left (fun best t => if Qcltb (key t) (key best) then t else best) r x
  end.

Section Calculators.

Variable np : numpy.

(** *** [_calculate_field_errors] *)

(** The body of the loop over [ground_truth_data] for one [field]: the error
    appended for [gt_entry], if any. *)
Definition field_error_sample (converted_data : list dict) (field : string)
           (gt_entry : dict) : option Qc :=
  match accepted tol_0_1 (find_closest (time_unix gt_entry) converted_data) with
  | Some closest_entry =>
      match _get_nested_field (JDict gt_entry) field,
            _get_nested_field (JDict closest_entry) field with
      | Some gt_value, Some conv_value =>
          Some (Qcabs (num_of gt_value - num_of conv_value))
      | _, _ => None
      end
  | None => None
  end.

(** [errors] after the loop. *)
Definition field_errors (ground_truth_data converted_data : list dict)
           (field : string) : list Qc :=
  collect (field_error_sample converted_data field) ground_truth_data.

(** [gt_values] with the [None]s filtered out. *)
Definition gt_field_values (ground_truth_data : list dict) (field : string)
  : list Qc :=
  collect (fun entry => option_map num_of (_get_nested_field (JDict entry) field))
          ground_truth_data.

Definition nrmse_of (rmse : Qc) (gt_values : list Qc) : pyval :=
  match gt_values with
  | [] => PyNone
  | _ :: _ =>
      let gt_range := np_max gt_values - np_min gt_values in
      if Qcltb 0 gt_range then PyFloat (rmse / gt_range) else PyNone
  end.

(** The value stored in [results[field]]. *)
Definition field_metrics (ground_truth_data converted_data : list dict)
           (field : string) : result metric_result :=
  let errors := field_errors ground_truth_data converted_data field in
  match errors with
  | _ :: _ =>
      let mae := np_mean errors in
      let rmse := np_sqrt np (np_mean (map square errors)) in
      let nrmse := nrmse_of rmse (gt_field_values ground_truth_data field) in
      pct <- truediv (length errors) (length ground_truth_data) ;;
      Ok [ ("mae", PyFloat mae);
           ("rmse", PyFloat rmse);
           ("nrmse", nrmse);
           ("max_error", PyFloat (np_max errors));
           ("min_error", PyFloat (np_min errors));
           ("std_error", PyFloat (np_std np errors));
           ("num_matched_points", PyInt (length errors));
           ("matched_percentage", PyFloat (pct * hundred)) ]
  | [] =>
      Ok [ ("mae", PyNone);
           ("rmse", PyNone);
           ("nrmse", PyNone);
           ("max_error", PyNone);
           ("min_error", PyNone);
           ("std_error", PyNone);
           ("num_matched_points", PyInt 0);
           ("matched_percentage", PyInt 0) ]
  end.

(** The loop [for field in fields: ... results[field] = {...}]. *)
Fixpoint field_loop (ground_truth_data converted_data : list dict)
         (fields : list string) (results : list (string * metric_result))
  : result (list (string * metric_result)) :=
  match fields with
  | [] => Ok results
  | field :: rest =>
      r <- field_metrics ground_truth_data converted_data field ;;
      field_loop ground_truth_data converted_data rest (assign results field r)
  end.

Definition _calculate_field_errors (ground_truth_data converted_data : list dict)
           (fields : list string) : result (list (string * metric_result)) :=
  field_loop ground_truth_data converted_data fields [].

(** *** The calculators of the older module

    [ground_truth.get("gnss_data", [])] and [converted.get("gnss_data", [])]
    (resp. ["imu_data"]) are the two list arguments. *)

Definition position_error_sample (converted_data : list dict) (gt_entry : dict)
  : option Qc :=
  match accepted tol_1_0 (find_closest (time_unix gt_entry) converted_data) with
  | Some closest_entry =>
      match get_group gt_entry "position_lla",
            get_group closest_entry "position_lla" with
      | Some gt_pos, Some conv_pos =>
          let lat_error :=
            Qcabs (get_or_zero gt_pos "latitude_deg" - get_or_zero conv_pos "latitude_deg") in
          let lon_error :=
            Qcabs (get_or_zero gt_pos "longitude_deg" - get_or_zero conv_pos "longitude_deg") in
          let alt_error :=
            Qcabs (get_or_zero gt_pos "altitude_m" - get_or_zero conv_pos "altitude_m") in
          let lat_m_error := lat_error * Q2Qc 111000 in
          let lon_m_error :=
            lon_error * Q2Qc 111000
            * np_cos np (np_radians np (get_or_zero gt_pos "latitude_deg")) in
          Some (np_sqrt np (square lat_m_error + square lon_m_error + square alt_error))
      | _, _ => None
      end
  | None => None
  end.

Definition orientation_error_sample (converted_data : list dict) (gt_entry : dict)
  : option Qc :=
  match accepted tol_0_1 (find_closest (time_unix gt_entry) converted_data) with
  | Some closest_entry =>
      match get_group gt_entry "orientation",
            get_group closest_entry "orientation" with
      | Some gt_orient, Some conv_orient =>
          let w1 := get_or_zero gt_orient "w" in
          let x1 := get_or_zero gt_orient "x" in
          let y1 := get_or_zero gt_orient "y" in
          let z1 := get_or_zero gt_orient "z" in
          let w2 := get_or_zero conv_orient "w" in
          let x2 := get_or_zero conv_orient "x" in
          let y2 := get_or_zero conv_orient "y" in
          let z2 := get_or_zero conv_orient "z" in
          let dot_product := w1 * w2 + x1 * x2 + y1 * y2 + z1 * z2 in
          let dot_product := Qcmax (Qcmin dot_product 1) (- (1)) in
          Some (np_degrees np (Q2Qc 2 * np_arccos np (Qcabs dot_product)))
      | _, _ => None
      end
  | None => None
  end.

Definition acceleration_error_sample (converted_data : list dict) (gt_entry : dict)
  : option Qc :=
  match accepted tol_0_1 (find_closest (time_unix gt_entry) converted_data) with
  | Some closest_entry =>
      match get_group gt_entry "linear_acceleration",
            get_group closest_entry "linear_acceleration" with
      | Some gt_acc, Some conv_acc =>
          let x_error := Qcabs (get_or_zero gt_acc "x" - get_or_zero conv_acc "x") in
          let y_error := Qcabs (get_or_zero gt_acc "y" - get_or_zero conv_acc "y") in
          let z_error := Qcabs (get_or_zero gt_acc "z" - get_or_zero conv_acc "z") in
          Some (np_sqrt np (square x_error + square y_error + square z_error))
      | _, _ => None
      end
  | None => None
  end.

(** The [if errors: return {...} else: return {...}] tail shared by the
    three calculators; [quantity] is ["position_error_m"],
    ["orientation_error_deg"] or ["acceleration_error_mps2"]. *)
Definition error_summary (quantity : string) (errors : list Qc) (total : nat)
  : result metric_result :=
  match errors with
  | _ :: _ =>
      pct <- truediv (length errors) total ;;
      Ok [ ("mean_" ++ quantity, PyFloat (np_mean errors));
           ("max_" ++ quantity, PyFloat (np_max errors));
           ("min_" ++ quantity, PyFloat (np_min errors));
           ("std_" ++ quantity, PyFloat (np_std np errors));
           ("num_matched_points", PyInt (length errors));
           ("matched_percentage", PyFloat (pct * hundred)) ]%string
  | [] =>
      Ok [ ("mean_" ++ quantity, PyNone);
           ("max_" ++ quantity, PyNone);
           ("min_" ++ quantity, PyNone);
           ("std_" ++ quantity, PyNone);
           ("num_matched_points", PyInt 0);
           ("matched_percentage", PyInt 0) ]%string
  end.

Definition calculate_position_error (gnss_gt gnss_conv : list dict)
  : result metric_result :=
  error_summary "position_error_m"
                (collect (position_error_sample gnss_conv) gnss_gt)
                (length gnss_gt).

Definition calculate_orientation_error (imu_gt imu_conv : list dict)
  : result metric_result :=
  error_summary "orientation_error_deg"
                (collect (orientation_error_sample imu_conv) imu_gt)
                (length imu_gt).

Definition calculate_acceleration_error (imu_gt imu_conv : list dict)
  : result metric_result :=
  error_summary "acceleration_error_mps2"
                (collect (acceleration_error_sample imu_conv) imu_gt)
                (length imu_gt).

(** *** [_evaluate_temporal_transformation_accuracy]: timestamp error *)

(** [timestamp_errors] after the loop over [gt_timestamps]. *)
Definition timestamp_errors (gt_timestamps conv_timestamps : list Qc) : list Qc :=
  map (fun gt_time =>
         let closest_time := min_by_key (fun t => Qcabs (t - gt_time)) conv_timestamps in
         Qcabs (gt_time - closest_time) * Q2Qc 1000000)
      gt_timestamps.

(** [results["timestamp_conversion_error"][filename]], or [None] when the
    guard [if gt_timestamps and conv_timestamps] leaves the file without an
    entry. *)
Definition timestamp_conversion_error (ground_truth converted : list dict)
  : option metric_result :=
  let gt_timestamps := timestamps ground_truth in
  let conv_timestamps := timestamps converted in
  match gt_timestamps, conv_timestamps with
  | _ :: _, _ :: _ =>
      let errors := timestamp_errors gt_timestamps conv_timestamps in
      Some [ ("mean_error_us", PyFloat (np_mean errors));
             ("max_error_us", PyFloat (np_max errors));
             ("min_error_us", PyFloat (np_min errors));
             ("std_error_us", PyFloat (np_std np errors)) ]
  | _, _ => None
  end.

End Calculators.

(** ** Field discovery and per-field value lists *)

(** [f"{prefix}.{key}" if prefix else key] *)
Definition field_name_of (prefix key : string) : string :=
  match prefix with
  | EmptyString => key
  | _ => (prefix ++ "." ++ key)%string
  end.

(** [_get_numerical_fields(data, prefix)] *)
Fixpoint _get_numerical_fields (data : json) (prefix : string) : list string :=
  match data with
  | JDict d =>
      (fix items (d : list (string * json)) : list string :=
         match d with
         | [] => []
         | (key, value) :: rest =>
             let field_name := field_name_of prefix key in
             (match value with
              | JDict _ => _get_numerical_fields value field_name
              | _ => if isinstance_int_float value then field_name :: nil else []
              end) ++ items rest
         end) d
  | _ => []
  end.

(** A dict from field names to value lists, such as [gt_fields]. *)
Definition field_values : Type := list (string * list Qc).

(** [if field not in d: d[field] = []] *)
Definition ensure_key (d : field_values) (field : string) : field_values :=
  match lookup d field with
  | Some _ => d
  | None => d ++ (field, []) :: nil
  end.

(** [d[field].append(v)] for a key that is present. *)
Fixpoint append_value (d : field_values) (field : string) (v : Qc) : field_values :=
  match d with
  | [] => []
  | (k, l) :: rest =>
      if String.eqb field k then (k, l ++ v :: nil) :: rest
      else (k, l) :: append_value rest field v
  end.

(** The body shared by the two collection loops:
[[
    if field not in d:
        d[field] = []
    value = self._get_nested_field(entry, field)
    if value is not None:
        d[field].append(value)
]] *)
Definition record_field (entry : dict) (d : field_values) (field : string)
  : field_values :=
  let d := ensure_key d field in
  match _get_nested_field (JDict entry) field with
  | Some value => append_value d field (num_of value)
  | None => d
  end.

(** [gt_fields] after the loop over the ground-truth entries. *)
Definition collect_gt_fields (ground_truth : list dict) : field_values :=
  fold_left (fun d entry =>
               fold_left (record_field entry) (_get_numerical_fields (JDict entry) "") d)
            ground_truth [].

(** [conv_fields] after the loop over the converted entries. *)
Definition collect_conv_fields (gt_fields : field_values) (converted : list dict)
  : field_values :=
  fold_left (fun d entry => fold_left (record_field entry) (keys gt_fields) d)
            converted [].

(** [min(20, n // 5)] *)
Definition bin_count (n : nat) : nat := Nat.min 20 (n / 5).

(** [np.histogram(values, bins=bins)[0]] for an integer [bins >= 1] and a
    non-empty [values]: equal-width bins over [[min, max]] (over
    [[min - 0.5, max + 0.5]] when all values are equal), the last bin closed
    on the right. *)
Definition bin_index (first_edge last_edge : Qc) (bins : nat) (v : Qc) : nat :=
  let f := (v - first_edge) / (last_edge - first_edge) * Qc_of_nat bins in
  let i := Z.to_nat (Qfloor f) in
  if Nat.eqb i bins then i - 1 else i.

Definition histogram_range (values : list Qc) : Qc * Qc :=
  let first_edge := np_min values in
  let last_edge := np_max values in
  if Qc_eq_bool first_edge last_edge
  then (first_edge - Q2Qc (1 # 2), last_edge + Q2Qc (1 # 2))
  else (first_edge, last_edge).

Definition np_histogram (values : list Qc) (bins : nat) : list nat :=
  let '(first_edge, last_edge) := histogram_range values in
  let indices := map (bin_index first_edge last_edge bins) values in
  map (fun b => count_occ Nat.eq_dec indices b) (seq 0 bins).

(** The alignment loop that precedes the mutual-information estimate:
    [closest_idx] and [min_time_diff] after
[[
    for j, conv_entry in enumerate(converted):
        if j < len(conv_values): ...
]] *)
Fixpoint scan_closest_idx (gt_time : option Qc) (converted : list dict)
         (n_conv_values : nat) (j : nat) (closest_idx : option nat)
         (min_time_diff : ext) : option nat * ext :=
  match converted with
  | [] => (closest_idx, min_time_diff)
  | conv_entry :: rest =>
      if Nat.ltb j n_conv_values then
        match time_unix conv_entry, gt_time with
        | Some conv_time, Some gt_t =>
            let time_diff := Qcabs (gt_t - conv_time) in
            if lt_ext time_diff min_time_diff
            then scan_closest_idx gt_time rest n_conv_values (S j) (Some j) (Fin time_diff)
            else scan_closest_idx gt_time rest n_conv_values (S j) closest_idx min_time_diff
        | _, _ => scan_closest_idx gt_time rest n_conv_values (S j) closest_idx min_time_diff
        end
      else scan_closest_idx gt_time rest n_conv_values (S j) closest_idx min_time_diff
  end.

(** [(aligned_gt, aligned_conv)] after the loop over
    [enumerate(ground_truth)], started at index [i]. *)
Fixpoint align_values (ground_truth converted : list dict)
         (gt_values conv_values : list Qc) (i : nat) : list Qc * list Qc :=
  match ground_truth with
  | [] => ([], [])
  | gt_entry :: rest =>
      let '(aligned_gt, aligned_conv) :=
        align_values rest converted gt_values conv_values (S i) in
      match nth_error gt_values i with
      | Some gv =>
          match scan_closest_idx (time_unix gt_entry) converted
                                 (length conv_values) 0 None Inf with
          | (Some closest_idx, min_time_diff) =>
              if ext_lt min_time_diff tol_0_1
              then match nth_error conv_values closest_idx with
                   | Some cv => (gv :: aligned_gt, cv :: aligned_conv)
                   | None => (aligned_gt, aligned_conv)
                   end
              else (aligned_gt, aligned_conv)
          | (None, _) => (aligned_gt, aligned_conv)
          end
      | None => (aligned_gt, aligned_conv)
      end
  end.

(** ** Information content: entropy over the real numbers *)

Local Close Scope Qc_scope.

Module Information.

Local Open Scope R_scope.

Definition Rsum (l : list R) : R := fold_right Rplus 0 l.

(** [np.mean] on a list of reals. *)
Definition Rmean (l : list R) : R := Rsum l / INR (length l).

(** [scipy.special.entr] on a probability: [-x log x] for [x > 0], [0] at [0]. *)
Definition entr (x : R) : R :=
  if Rlt_dec 0 x then - x * ln x else 0.

(** [scipy.stats.entropy(pk)]: [pk] is normalised to sum 1, then
    [sum(entr(pk))] (natural logarithm). *)
Definition scipy_entropy (pk : list R) : R :=
  let total := Rsum pk in
  Rsum (map (fun p => entr (p / total)) pk).

(** [_calculate_entropy] *)
Definition _calculate_entropy (values : list Qc) : R :=
  match values with
  | [] => 0
  | _ :: _ =>
      let bins := bin_count (length values) in
      if Nat.ltb bins 2 then 0
      else
        let hist := np_histogram values bins in
        let total := fold_right Nat.add 0%nat hist in
        scipy_entropy (map (fun c => INR c / INR total) hist)
  end.

(** [entropy_ratio] for one field. *)
Definition entropy_ratio (gt_values conv_values : list Qc) : option R :=
  let gt_entropy := _calculate_entropy gt_values in
  let conv_entropy := _calculate_entropy conv_values in
  if Rlt_dec 0 gt_entropy then Some (conv_entropy / gt_entropy) else None.

Section Content.

(** [mutual_info_score(None, None, contingency=joint_hist)] for the joint
    histogram [np.histogram2d] builds from the two aligned lists over the
    edges of their [bins]-bin histograms. *)
Variable mutual_information : list Qc -> list Qc -> nat -> R.

Definition mutual_info_of (aligned_gt aligned_conv : list Qc) : option R :=
  match aligned_gt, aligned_conv with
  | _ :: _, _ :: _ =>
      let bins := bin_count (length aligned_gt) in
      if Nat.ltb 1 bins
      then Some (mutual_information aligned_gt aligned_conv bins)
      else None
  | _, _ => None
  end.

(** The per-file result: the two entries
    [results["entropy_ratio"][filename]] and
    [results["mutual_information"][filename]]. *)
Record content_result : Type := {
  average_entropy_ratio : option R;
  field_entropy_ratios : list (string * option R);
  average_mutual_information : option R;
  field_mutual_information : list (string * option R)
}.

(** [[r for r in d.values() if r is not None]] *)
Definition valid_values (d : list (string * option R)) : list R :=
  flat_map (fun kv => match snd kv with Some r => r :: nil | None => [] end) d.

(** [np.mean(valid) if valid else None] *)
Definition average_of (d : list (string * option R)) : option R :=
  match valid_values d with
  | [] => None
  | (_ :: _) as valid => Some (Rmean valid)
  end.

(** The loop [for field in gt_fields.keys()] with its two result dicts. *)
Fixpoint content_loop (ground_truth converted : list dict)
         (gt_fields conv_fields : field_values) (fields : list string)
         (ratios infos : list (string * option R))
  : list (string * option R) * list (string * option R) :=
  match fields with
  | [] => (ratios, infos)
  | field :: rest =>
      match lookup gt_fields field, lookup conv_fields field with
      | Some ((_ :: _) as gt_values), Some ((_ :: _) as conv_values) =>
          let ratio := entropy_ratio gt_values conv_values in
          let '(aligned_gt, aligned_conv) :=
            align_values ground_truth converted gt_values conv_values 0 in
          let info := mutual_info_of aligned_gt aligned_conv in
          content_loop ground_truth converted gt_fields conv_fields rest
                       (assign ratios field ratio) (assign infos field info)
      | _, _ =>
          content_loop ground_truth converted gt_fields conv_fields rest ratios infos
      end
  end.

(** The body of [_evaluate_information_content] for one file pair. *)
Definition information_content (ground_truth converted : list dict)
  : content_result :=
  let gt_fields := collect_gt_fields ground_truth in
  let conv_fields := collect_conv_fields gt_fields converted in
  let '(ratios, infos) :=
    content_loop ground_truth converted gt_fields conv_fields (keys gt_fields) [] [] in
  {| average_entropy_ratio := average_of ratios;
     field_entropy_ratios := ratios;
     average_mutual_information := average_of infos;
     field_mutual_information := infos |}.

End Content.

End Information.

(** ** Signal fidelity *)

Module Signal.

Local Open Scope Qc_scope.

(** The objects a name of [_calculate_psd] can be bound to. *)
Inductive pyobj : Type :=
| Evaluator
| Ndarray (a : list Qc)
| ScipySignalModule.

(** Module level: [import scipy.signal as signal]. *)
Definition module_globals : list (string * pyobj) :=
  ("signal", ScipySignalModule) :: nil.

(** Name resolution inside a function body: locals first, then globals. *)
Definition name_lookup (locals globals : list (string * pyobj)) (name : string)
  : result pyobj :=
  match lookup locals name with
  | Some o => Ok o
  | None =>
      match lookup globals name with
      | Some o => Ok o
      | None => Raise NameError
      end
  end.

Section Fidelity.

(** [scipy.signal.welch(x, nperseg=n)[1]] *)
Variable welch : list Qc -> nat -> list Qc.
(** [np.corrcoef(a, b)[0, 1]] *)
Variable corrcoef : list Qc -> list Qc -> Qc.
Variable np_log10 : Qc -> Qc.

(** [o.welch]: only the scipy module has this attribute. *)
Definition getattr_welch (o : pyobj) : result (list Qc -> nat -> list Qc) :=
  match o with
  | ScipySignalModule => Ok welch
  | _ => Raise AttributeError
  end.

(** [_calculate_psd(self, signal)].  The parameter is called [signal], so
    in the body the name [signal] is the local array. *)
Definition _calculate_psd (signal : list Qc) : result (list Qc) :=
  let locals := [("self", Evaluator); ("signal", Ndarray signal)] in
  if Nat.ltb (length signal) 10 then Ok []
  else
    o <- name_lookup locals module_globals "signal" ;;
    f <- getattr_welch o ;;
    Ok (f signal (Nat.min 256 (length signal / 2))).

(** What the loop body stores for one field: [field_snr[field]],
    [field_freq_response[field]] ([None]: the key is not set) and
    [field_dynamic_range[field]] ([None]: the stored value is [None]). *)
Record fidelity : Type := {
  field_snr : ext;
  field_freq_response : option Qc;
  field_dynamic_range : option Qc
}.

Definition frequency_response (is_imu : bool) (min_len : nat)
           (gt_signal conv_signal : list Qc) : result (option Qc) :=
  if is_imu && Nat.ltb 10 min_len then
    gt_psd <- _calculate_psd gt_signal ;;
    conv_psd <- _calculate_psd conv_signal ;;
    if Nat.ltb 0 (length gt_psd) && Nat.ltb 0 (length conv_psd) then
      let min_psd_len := Nat.min (length gt_psd) (length conv_psd) in
      Ok (Some (corrcoef (firstn min_psd_len gt_psd) (firstn min_psd_len conv_psd)))
    else Ok None
  else Ok None.

(** The body of the loop [for field in gt_fields.keys()] of
    [_evaluate_signal_fidelity]; [is_imu] is ["imu" in filename.lower()].
    [Ok None]: nothing is stored for the field. *)
Definition field_signal_fidelity (is_imu : bool) (gt_values conv_values : list Qc)
  : result (option fidelity) :=
  match gt_values, conv_values with
  | _ :: _, _ :: _ =>
      let min_len := Nat.min (length gt_values) (length conv_values) in
      let gt_signal := firstn min_len gt_values in
      let conv_signal := firstn min_len conv_values in
      if Nat.ltb 0 min_len then
        let noise := map (fun p => fst p - snd p) (combine gt_signal conv_signal) in
        let signal_power := np_mean (map square gt_signal) in
        let noise_power := np_mean (map square noise) in
        let snr :=
          if Qcltb 0 noise_power
          then Fin (Q2Qc 10 * np_log10 (signal_power / noise_power))
          else Inf in
        freq <- frequency_response is_imu min_len gt_signal conv_signal ;;
        let gt_range := np_max gt_signal - np_min gt_signal in
        let conv_range := np_max conv_signal - np_min conv_signal in
        let range_ratio :=
          if Qcltb 0 gt_range then Some (conv_range / gt_range) else None in
        Ok (Some {| field_snr := snr;
                    field_freq_response := freq;
                    field_dynamic_range := range_ratio |})
      else Ok None
  | _, _ => Ok None
  end.

End Fidelity.

End Signal.

(** ** The coordinate transform checker, over real numbers *)

Module Geodesy.

Local Open Scope R_scope.

(** [np.radians] *)
Definition radians (deg : R) : R := deg * PI / 180.

(** WGS84 parameters of [_lla_to_ecef]. *)
Definition wgs84_a : R := 6378137.
Definition wgs84_f : R := 1 / (298257223563 / 1000000000).
Definition wgs84_e_sq : R := 2 * wgs84_f - wgs84_f ^ 2.

(** [_lla_to_ecef(lat, lon, alt)]; an absent argument is Python's [None]. *)
Definition _lla_to_ecef (lat lon alt : option R) : option (R * R * R) :=
  match lat, lon, alt with
  | Some lat, Some lon, Some alt =>
      let lat_rad := radians lat in
      let lon_rad := radians lon in
      let N := wgs84_a / sqrt (1 - wgs84_e_sq * (sin lat_rad) ^ 2) in
      let x := (N + alt) * cos lat_rad * cos lon_rad in
      let y := (N + alt) * cos lat_rad * sin lon_rad in
      let z := (N * (1 - wgs84_e_sq) + alt) * sin lat_rad in
      Some (x, y, z)
  | _, _, _ => None
  end.

End Geodesy.

(** ** Auxiliary notions used in the statements *)

Local Open Scope Qc_scope.

(** The time difference the loop computes for a converted entry. *)
Definition time_diff_of (T : Qc) (conv_entry : dict) : option Qc :=
  option_map (fun t => Qcabs (T - t)) (time_unix conv_entry).

(** The two no-data literals of the calculators. *)
Definition no_data_field_metrics : metric_result :=
  [ ("mae", PyNone); ("rmse", PyNone); ("nrmse", PyNone);
    ("max_error", PyNone); ("min_error", PyNone); ("std_error", PyNone);
    ("num_matched_points", PyInt 0); ("matched_percentage", PyInt 0) ].

Definition no_data_summary (quantity : string) : metric_result :=
  [ ("mean_" ++ quantity, PyNone); ("max_" ++ quantity, PyNone);
    ("min_" ++ quantity, PyNone); ("std_" ++ quantity, PyNone);
    ("num_matched_points", PyInt 0); ("matched_percentage", PyInt 0) ]%string.

(** The key sets of the two kinds of leaf result. *)
Definition field_metrics_keys : list string :=
  [ "mae"; "rmse"; "nrmse"; "max_error"; "min_error"; "std_error";
    "num_matched_points"; "matched_percentage" ].

Definition summary_keys (quantity : string) : list string :=
  [ "mean_" ++ quantity; "max_" ++ quantity; "min_" ++ quantity;
    "std_" ++ quantity; "num_matched_points"; "matched_percentage" ]%string.

(** [k in d and len(d[k]) > 0] *)
Definition has_values (d : field_values) (k : string) : bool :=
  match lookup d k with
  | Some (_ :: _) => true
  | _ => false
  end.

(** The keys of a dict after [d[k] = v]. *)
Definition add_key (ks : list string) (k : string) : list string :=
  if existsb (String.eqb k) ks then ks else ks ++ k :: nil.

(** No two entries of a list of time differences are equal. *)
Fixpoint distinctb (l : list Qc) : bool :=
  match l with
  | [] => true
  | x :: r => negb (existsb (Qc_eq_bool x) r) && distinctb r
  end.



(** The sum [np.sum(hist)] and the entropy of a histogram as
    [_calculate_entropy] computes it. *)
Definition hist_total (hist : list nat) : nat := fold_right Nat.add 0%nat hist.

Definition hist_entropy (hist : list nat) : R :=
  Information.scipy_entropy (map (fun c => (INR c / INR (hist_total hist))%R) hist).

(** What one record adds to the value list of [field]. *)
Definition contribution (entry : dict) (field : string) : list Qc :=
  match _get_nested_field (JDict entry) field with
  | Some value => num_of value :: nil
  | None => []
  end.

(** What one pass of the collection loop over [fields] adds for [field]:
    one contribution per occurrence of [field] in [fields]. *)
Definition entry_values (fields : list string) (entry : dict) (field : string)
  : list Qc :=
  flat_map (fun f => if String.eqb field f then contribution entry field else [])
           fields.

(** [d[k]], or the empty list when [k] is not a key. *)
Definition get_list (d : field_values) (k : string) : list Qc :=
  match lookup d k with
  | Some l => l
  | None => []
  end.

(** [k in d] *)
Definition has_key {V : Type} (d : list (string * V)) (k : string) : bool :=
  match lookup d k with
  | Some _ => true
  | None => false
  end.

(** Every record lists each discovered field that resolves in it exactly
    once: no key holds a dot that makes two different nestings spell the
    same path. *)
Definition listed_once (ground_truth : list dict) : bool :=
  forallb (fun entry =>
             forallb (fun field =>
                        match _get_nested_field (JDict entry) field with
                        | Some _ =>
                            Nat.eqb (count_occ string_dec
                                               (_get_numerical_fields (JDict entry) "")
                                               field) 1
                        | None => true
                        end)
                     (keys (collect_gt_fields ground_truth)))
          ground_truth.

(** ** Sample data used to instantiate the statements *)

Definition qnum (a : Z) (b : positive) : Qc := Q2Qc (a # b).

(** A stand-in for the numpy functions taken as parameters. *)
Definition np_stub : numpy :=
  {| np_sqrt := fun x => x;
     np_cos := fun x => x;
     np_radians := fun x => x;
     np_degrees := fun x => x;
     np_arccos := fun x => x |}.

(** [{"status": {"valid": true}}] *)
Definition ex_flag_record : json :=
  JDict [("status", JDict (("valid", JBool true) :: nil))].

(** Eleven samples of a field, and stand-ins for the scipy and numpy calls
    of the spectral comparison. *)
Definition ex_signal_11 : list Qc := map (fun n => Qc_of_nat n) (seq 0 11).
Definition ex_welch (x : list Qc) (nperseg : nat) : list Qc := x.
Definition ex_corrcoef (a b : list Qc) : Qc := 1%Qc.

(** A record [{"time_unix": t, "x": x}]. *)
Definition ex_record (t x : Qc) : dict :=
  [("time_unix", JNum t); ("x", JNum x)].

(** A GNSS record with a full [position_lla] group, and one whose group
    lacks [latitude_deg]. *)
Definition ex_gnss (t lat lon alt : Qc) : dict :=
  [("time_unix", JNum t);
   ("position_lla", JDict [("latitude_deg", JNum lat);
                           ("longitude_deg", JNum lon);
                           ("altitude_m", JNum alt)])].


(** Ground truth sampled at [t = 0], converted data sampled at [t = 5]. *)
Definition ex_gt_at_0 : list dict := ex_record (qnum 0 1) (qnum 7 1) :: nil.
Definition ex_conv_at_5 : list dict := ex_record (qnum 5 1) (qnum 9 1) :: nil.

Definition ex_gt_latitude_0 : dict := ex_gnss (qnum 0 1) (qnum 0 1) (qnum 114 1) (qnum 10 1).
Definition ex_conv_gnss : list dict :=
  ex_gnss (qnum 0 1) (qnum 22 1) (qnum 114 1) (qnum 10 1) :: nil.


(** Ten ground-truth records [t = 0 .. 9] with [x = t], and a stand-in for
    the mutual-information estimate. *)
Definition ex_gt_ramp : list dict :=
  map (fun n => ex_record (Qc_of_nat n) (Qc_of_nat n)) (seq 0 10).
Definition ex_mutual_information (a b : list Qc) (bins : nat) : R := 0%R.

(** Converted data with two records at the ground-truth time 0, after one
    record at time 1. *)
Definition ex_conv_exact : list dict :=
  [ex_record (qnum 1 1) (qnum 1 1); ex_record (qnum 0 1) (qnum 9 1);
   ex_record (qnum 0 1) (qnum 11 1)].


(** Two ground-truth records, at [t = 0] and [t = -1]. *)
Definition ex_gt_pair : list dict :=
  [ex_record (qnum 0 1) (qnum 7 1); ex_record (qnum (-1) 1) (qnum 8 1)].



(** [entry.get("time_unix") is not None] *)
Definition has_time (entry : dict) : bool :=
  match time_unix entry with
  | Some _ => true
  | None => false
  end.

(** The record has a timestamp and [field] resolves in it. *)
Definition timed_with_field (field : string) (entry : dict) : bool :=
  has_time entry &&
  match _get_nested_field (JDict entry) field with
  | Some _ => true
  | None => false
  end.

(** ** Sampling rates and the GNSS/IMU alignment *)







(** [results["temporal_alignment_error"]["gnss_imu"]] for the first GNSS
    and the first IMU file of each directory: the mean distance from a GNSS
    timestamp to the nearest IMU timestamp in the ground truth and in the
    converted data, and the absolute difference of the two; no entry when
    one of the four timestamp lists is empty. *)
Definition temporal_alignment_error (gt_gnss gt_imu conv_gnss conv_imu : list dict)
  : option metric_result :=
  match timestamps gt_gnss, timestamps gt_imu, timestamps conv_gnss, timestamps conv_imu with
  | _ :: _, _ :: _, _ :: _, _ :: _ =>
      let gt_alignment_errors := timestamp_errors (timestamps gt_gnss) (timestamps gt_imu) in
      let conv_alignment_errors :=
        timestamp_errors (timestamps conv_gnss) (timestamps conv_imu) in
      Some [ ("ground_truth_mean_error_us", PyFloat (np_mean gt_alignment_errors));
             ("converted_mean_error_us", PyFloat (np_mean conv_alignment_errors));
             ("alignment_error_difference_us",
              PyFloat (Qcabs (np_mean gt_alignment_errors - np_mean conv_alignment_errors))) ]
  | _, _, _, _ => None
  end.

(** ** Structural compliance *)

(** [_collect_fields(data, prefix, fields)]: the set [fields] after the
    call, kept as a duplicate-free list.  A list value is passed to the
    recursive call, which does nothing on it. *)
Fixpoint _collect_fields (data : json) (prefix : string) (fields : list string)
  : list string :=
  match data with
  | JDict d =>
      (fix items (d : list (string * json)) (fields : list string) : list string :=
         match d with
         | [] => fields
         | (key, value) :: rest =>
             let field_name := field_name_of prefix key in
             items rest
                   (match value with
                    | JDict _ | JList _ => _collect_fields value field_name fields
                    | _ => add_key fields field_name
                    end)
         end) d fields
  | _ => fields
  end.

(** A schema document: per category, a dict holding the list
    ["required_fields"]. *)
Definition schema_doc : Type := list (string * list (string * list string)).

(** [_get_required_fields(schema, schema_type)] *)
Definition _get_required_fields (schema : schema_doc) (schema_type : string)
  : list string :=
  match lookup schema schema_type with
  | Some category =>
      match lookup category "required_fields" with
      | Some required => required
      | None => []
      end
  | None => []
  end.

(** [part / total * 100 if total > 0 else 0] *)
Definition percentage (part total : nat) : pyval :=
  if Nat.ltb 0 total
  then PyFloat (Qc_of_nat part / Qc_of_nat total * hundred)
  else PyInt 0.

(** [self._get_nested_field(entry, field) is not None] *)
Definition resolves (entry : dict) (field : string) : bool :=
  match _get_nested_field (JDict entry) field with
  | Some _ => true
  | None => false
  end.

(** The two counters after
[[
    for entry in converted.get(data_type, []):
        for field in required_fields:
            total_fields += 1
            if self._get_nested_field(entry, field) is not None:
                compliant_fields += 1
]]
    as the pair [(compliant_fields, total_fields)]. *)
Definition count_compliant (converted : list dict) (required_fields : list string)
  : nat * nat :=
  fold_left (fun counters entry =>
               fold_left (fun '(compliant_fields, total_fields) field =>
                            (if resolves entry field
                             then S compliant_fields else compliant_fields,
                             S total_fields))
                         required_fields counters)
            converted (0%nat, 0%nat).

(** [results["schema_compliance_score"][filename]], or [None] when the file
    gets no entry. *)
Definition schema_compliance_score (schema : schema_doc) (schema_type : string)
           (converted : list dict) : option metric_result :=
  match schema with
  | [] => None
  | _ :: _ =>
      if has_key schema schema_type then
        match _get_required_fields schema schema_type with
        | [] => None
        | (_ :: _) as required_fields =>
            let '(compliant_fields, total_fields) :=
              count_compliant converted required_fields in
            Some [ ("compliance_score", percentage compliant_fields total_fields);
                   ("compliant_fields", PyInt compliant_fields);
                   ("total_fields", PyInt total_fields) ]
        end
      else None
  end.

(** [gt_fields] after [for entry in ...: self._collect_fields(entry, "", gt_fields)]. *)
Definition collect_all_fields (ground_truth : list dict) : list string :=
  fold_left (fun fields entry => _collect_fields (JDict entry) "" fields) ground_truth [].

(** [field_exists] after the loop over the converted entries. *)
Definition field_exists (converted : list dict) (field : string) : bool :=
  existsb (fun entry => resolves entry field) converted.

(** [(mapped_fields, total_fields)] after the loop over [gt_fields]. *)
Definition count_mapped (gt_fields : list string) (converted : list dict) : nat * nat :=
  fold_left (fun '(mapped_fields, total_fields) field =>
               (if field_exists converted field then S mapped_fields else mapped_fields,
                S total_fields))
            gt_fields (0%nat, 0%nat).

(** [results["field_mapping_accuracy"][filename]] *)
Definition field_mapping_accuracy (ground_truth converted : list dict) : metric_result :=
  let '(mapped_fields, total_fields) :=
    count_mapped (collect_all_fields ground_truth) converted in
  [ ("mapping_accuracy", percentage mapped_fields total_fields);
    ("mapped_fields", PyInt mapped_fields);
    ("total_fields", PyInt total_fields) ].

(** [_infer_schema_from_data], given the records of the GNSS files and of
    the IMU files of the ground-truth directory. *)
Definition _infer_schema_from_data (gnss_files imu_files : list (list dict)) : schema_doc :=
  let gnss_fields :=
    fold_left (fun fields data =>
                 fold_left (fun fields entry => _collect_fields (JDict entry) "" fields)
                           data fields)
              gnss_files [] in
  let imu_fields :=
    fold_left (fun fields data =>
                 fold_left (fun fields entry => _collect_fields (JDict entry) "" fields)
                           data fields)
              imu_files [] in
  [ ("gnss", ("required_fields", gnss_fields) :: nil);
    ("imu", ("required_fields", imu_fields) :: nil) ].
(** Structural induction on JSON values, through lists and objects. *)
Section JsonInduction.

Variable P : json -> Prop.
Hypothesis HNull : P JNull.
Hypothesis HBool : forall b, P (JBool b).
Hypothesis HNum : forall q, P (JNum q).
Hypothesis HStr : forall s, P (JStr s).
Hypothesis HList : forall l, Forall P l -> P (JList l).
Hypothesis HDict : forall d, Forall (fun kv => P (snd kv)) d -> P (JDict d).

Fixpoint json_induction (j : json) : P j :=
  match j with
  | JNull => HNull
  | JBool b => HBool b
  | JNum q => HNum q
  | JStr s => HStr s
  | JList l =>
      HList l ((fix all (l : list json) : Forall P l :=
                  match l with
                  | [] => Forall_nil P
                  | x :: r => Forall_cons x (json_induction x) (all r)
                  end) l)
  | JDict d =>
      HDict d ((fix all (d : list (string * json)) : Forall (fun kv => P (snd kv)) d :=
                  match d with
                  | [] => Forall_nil _
                  | kv :: r => Forall_cons kv (json_induction (snd kv)) (all r)
                  end) d)
  end.

End JsonInduction.

(** The number of (record, required field) pairs in which the field
    resolves. *)
Definition compliant_pairs (converted : list dict) (required_fields : list string) : nat :=
  list_sum (map (fun entry => length (filter (resolves entry) required_fields)) converted).

(** The string holds no ['.']. *)
Fixpoint no_dot (s : string) : bool :=
  match s with
  | EmptyString => true
  | String c r => negb (Ascii.eqb c "."%char) && no_dot r
  end.

(** How a percentage relates to its two counters. *)
Definition percentage_of (part total : nat) (score : pyval) : Prop :=
  (total = 0%nat /\ score = PyInt 0) \/
  (exists p, score = PyFloat p /\ 0 <= p /\ p <= hundred /\
             (p = hundred <-> part = total) /\ (p = 0 <-> part = 0%nat)).

(** [{"time_unix": 0, "frame": "ECEF"}] *)
Definition ex_record_with_string : dict :=
  [("time_unix", JNum (Q2Qc 0)); ("frame", JStr "ECEF")].

(** ** Signals *)



(** ** Records with plain keys *)

(** A key that is not empty and holds no ['.']. *)
Definition plain_key (k : string) : bool :=
  match k with
  | EmptyString => false
  | String _ _ => no_dot k
  end.

(** Every object reachable through objects has plain keys, each of them
    once (an object read by [json.load] holds a key once). *)
Fixpoint plain_keys (v : json) : bool :=
  match v with
  | JDict d =>
      (fix items (d : list (string * json)) : bool :=
         match d with
         | [] => true
         | (key, value) :: rest =>
             plain_key key && negb (has_key rest key) && plain_keys value && items rest
         end) d
  | _ => true
  end.

(** ** [generate_summary]: the numerical field accuracy *)








(** ** The coordinate conversion check, over real numbers

    The records are typed as the data set documents them: a position
    group is an object or [null], a coordinate a number or [null]. *)

Module Coordinates.

Local Open Scope R_scope.

Definition Qc2R (q : Qc) : R := Q2R (this q).

(** What the check can yield: a value, or the [TypeError] of an
    arithmetic operation on [None]. *)
Inductive outcome (A : Type) : Type :=
| Value (a : A)
| TypeError.

Arguments Value {A} a.
Arguments TypeError {A}.

(** [entry.get(k)] used as a condition: the group when it is an object
    that is not empty. *)
Definition nonempty_group (entry : dict) (k : string) : option dict :=
  match get_group entry k with
  | Some ((_ :: _) as d) => Some d
  | _ => None
  end.

(** [d.get(k)] for a coordinate: [None] when the key is missing or [null]. *)
Definition get_coordinate (d : dict) (k : string) : option R :=
  match dict_get d k with
  | Some v => if isinstance_int_float v then Some (Qc2R (num_of v)) else None
  | None => None
  end.

(** [[
    np.sqrt((expected_ecef[0] - x)**2 + (expected_ecef[1] - y)**2
            + (expected_ecef[2] - z)**2)
]] *)
Definition ecef_error (expected_ecef : R * R * R) (x y z : R) : R :=
  let '(ex, ey, ez) := expected_ecef in
  sqrt ((ex - x) ^ 2 + (ey - y) ^ 2 + (ez - z) ^ 2).

(** The body of the loop over the ground-truth entries: the error
    appended for [gt_entry], if any. *)
Definition coordinate_error_sample (converted_data : list dict) (gt_entry : dict)
  : outcome (option R) :=
  match accepted tol_0_1 (find_closest (time_unix gt_entry) converted_data) with
  | Some closest_entry =>
      match nonempty_group gt_entry "position_lla",
            nonempty_group gt_entry "position_ecef",
            nonempty_group closest_entry "position_lla",
            nonempty_group closest_entry "position_ecef" with
      | Some _, Some _, Some conv_lla, Some conv_ecef =>
          match Geodesy._lla_to_ecef (get_coordinate conv_lla "latitude_deg")
                                     (get_coordinate conv_lla "longitude_deg")
                                     (get_coordinate conv_lla "altitude_m") with
          | Some expected_ecef =>
              if has_key conv_ecef "x" && has_key conv_ecef "y" && has_key conv_ecef "z"
              then match get_coordinate conv_ecef "x",
                         get_coordinate conv_ecef "y",
                         get_coordinate conv_ecef "z" with
                   | Some x, Some y, Some z => Value (Some (ecef_error expected_ecef x y z))
                   | _, _, _ => TypeError
                   end
              else Value None
          | None => Value None
          end
      | _, _, _, _ => Value None
      end
  | None => Value None
  end.

(** [lla_to_ecef_errors] after the loop. *)
Fixpoint coordinate_errors (converted_data ground_truth_data : list dict)
  : outcome (list R) :=
  match ground_truth_data with
  | [] => Value []
  | gt_entry :: rest =>
      match coordinate_error_sample converted_data gt_entry with
      | TypeError => TypeError
      | Value sample =>
          match coordinate_errors converted_data rest with
          | TypeError => TypeError
          | Value errors =>
              Value (match sample with
                     | Some error => error :: errors
                     | None => errors
                     end)
          end
      end
  end.

(** [has_both_coords] after its loop. *)
Definition has_both_coords (ground_truth_data : list dict) : bool :=
  existsb (fun gt_entry => has_key gt_entry "position_lla"
                           && has_key gt_entry "position_ecef")
          ground_truth_data.

Definition Rmax_list (l : list R) : R :=
  match l with
  | [] => 0
  | x :: r => fold_left Rmax r x
  end.

Definition Rmin_list (l : list R) : R :=
  match l with
  | [] => 0
  | x :: r => fold_left Rmin r x
  end.

(** [results["coordinate_conversion_error"][filename]] *)
Record conversion_error : Type := {
  mean_error_m : R;
  max_error_m : R;
  min_error_m : R;
  std_error_m : R
}.

(** The body of [_evaluate_coordinate_transformation_accuracy] for one
    file pair; [Value None]: no entry is stored for the file. *)
Definition coordinate_conversion_error (ground_truth_data converted_data : list dict)
  : outcome (option conversion_error) :=
  if has_both_coords ground_truth_data then
    match coordinate_errors converted_data ground_truth_data with
    | TypeError => TypeError
    | Value [] => Value None
    | Value ((_ :: _) as errors) =>
        let mean := Information.Rmean errors in
        Value (Some {| mean_error_m := mean;
                       max_error_m := Rmax_list errors;
                       min_error_m := Rmin_list errors;
                       std_error_m :=
                         sqrt (Information.Rmean (map (fun e => (e - mean) ^ 2) errors)) |})
    end
  else Value None.

(** What the check reads of a ground-truth record: its timestamp, whether
    it has the two position keys, and whether the two groups are objects
    that are not empty. *)
Definition ground_truth_view (gt_entry : dict) : option Qc * (bool * bool) * (bool * bool) :=
  (time_unix gt_entry,
   (has_key gt_entry "position_lla", has_key gt_entry "position_ecef"),
   (match nonempty_group gt_entry "position_lla" with Some _ => true | None => false end,
    match nonempty_group gt_entry "position_ecef" with Some _ => true | None => false end)).

End Coordinates.

(** A GNSS record at [t = 0] with both position groups. *)
Definition ex_gnss_both (lat x : Qc) : dict :=
  [("time_unix", JNum (qnum 0 1));
   ("position_lla", JDict [("latitude_deg", JNum lat); ("longitude_deg", JNum (qnum 0 1));
                           ("altitude_m", JNum (qnum 0 1))]);
   ("position_ecef", JDict [("x", JNum x); ("y", JNum (qnum 0 1)); ("z", JNum (qnum 0 1))])].

(** * Properties *)

(** ** Order facts *)

Lemma Qcltb_true_iff (x y : Qc) : Qcltb x y = true <-> x < y.
Proof.
  unfold Qcltb. rewrite Qclt_alt.
  destruct (x ?= y); split; intro H; try reflexivity; discriminate H.
Qed.

Lemma Qcltb_false_iff (x y : Qc) : Qcltb x y = false <-> y <= x.
Proof.
  split; intro H.
  - apply Qcnot_lt_le. intro L. apply Qcltb_true_iff in L. congruence.
  - destruct (Qcltb x y) eqn:E; [|reflexivity].
    apply Qcltb_true_iff in E. exfalso. exact (Qcle_not_lt _ _ H E).
Qed.

Lemma Qcabs_self_diff (t : Qc) : Qcabs (t - t) = 0.
Proof.
  replace (t - t) with 0 by ring.
  apply Qcabs_pos. apply Qcle_refl.
Qed.

Lemma Qcabs_diff_zero (x y : Qc) : Qcabs (x - y) = 0 -> y = x.
Proof.
  intro H. apply Qcabs_null in H.
  replace y with (y + 0) by ring. rewrite <- H. ring.
Qed.

(** ** The aligner *)

Lemma lt_ext_trans (d d0 : Qc) (m : ext) :
  d < d0 -> lt_ext d0 m = true -> lt_ext d m = true.
Proof.
  destruct m as [q|]; simpl; [|reflexivity].
  rewrite !Qcltb_true_iff. apply Qclt_trans.
Qed.

Lemma lt_ext_false_lt (d d0 : Qc) (m : ext) :
  lt_ext d0 m = false -> lt_ext d m = true -> d < d0.
Proof.
  destruct m as [q|]; simpl; [|discriminate].
  rewrite Qcltb_false_iff, Qcltb_true_iff. intros H1 H2.
  eapply Qclt_le_trans; eauto.
Qed.

(** What one run of the loop returns, from any starting pair: either no
    entry beats the starting difference and the pair is returned as it
    was, or the entry at the first index of the least difference is. *)
Lemma scan_closest_spec (T : Qc) (l : list dict) :
  forall (closest : option dict) (m : ext),
    (scan_closest (Some T) l closest m = (closest, m) /\
     forall c d, In c l -> time_diff_of T c = Some d -> lt_ext d m = false)
    \/
    (exists i c d,
        nth_error l i = Some c /\ time_diff_of T c = Some d /\
        scan_closest (Some T) l closest m = (Some c, Fin d) /\
        lt_ext d m = true /\
        forall j c' d', nth_error l j = Some c' -> time_diff_of T c' = Some d' ->
                        d <= d' /\ ((j < i)%nat -> d < d')).
Proof.
  induction l as [|c0 rest IH]; intros closest m.
  - left. split; [reflexivity|]. intros c d [].
  - simpl. destruct (time_unix c0) as [t0|] eqn:E0.
    + destruct (lt_ext (Qcabs (T - t0)) m) eqn:L0.
      * destruct (IH (Some c0) (Fin (Qcabs (T - t0)))) as [[Heq Hall]|(i & c & d & Hn & Hd & Heq & Hlt & Hmin)].
        -- right. exists 0%nat, c0, (Qcabs (T - t0)).
           repeat split; auto.
           ++ unfold time_diff_of. rewrite E0. reflexivity.
           ++ destruct j as [|j]; simpl in H.
              ** injection H as <-. unfold time_diff_of in H0. rewrite E0 in H0.
                 injection H0 as <-. apply Qcle_refl.
              ** apply nth_error_In in H. specialize (Hall _ _ H H0).
                 simpl in Hall. now apply Qcltb_false_iff.
           ++ intro Hj. inversion Hj.
        -- right. exists (S i), c, d. simpl in Hlt. apply Qcltb_true_iff in Hlt.
           repeat split; auto.
           ++ eapply lt_ext_trans; eauto.
           ++ destruct j as [|j]; simpl in H.
              ** injection H as <-. unfold time_diff_of in H0. rewrite E0 in H0.
                 injection H0 as <-. now apply Qclt_le_weak.
              ** now apply (Hmin j c' d').
           ++ intro Hj. destruct j as [|j]; simpl in H.
              ** injection H as <-. unfold time_diff_of in H0. rewrite E0 in H0.
                 now injection H0 as <-.
              ** apply (Hmin j c' d'); auto. lia.
      * destruct (IH closest m) as [[Heq Hall]|(i & c & d & Hn & Hd & Heq & Hlt & Hmin)].
        -- left. split; auto. intros c d [<-|Hin] Hd.
           ++ unfold time_diff_of in Hd. rewrite E0 in Hd. now injection Hd as <-.
           ++ eauto.
        -- right. exists (S i), c, d. repeat split; auto.
           ++ destruct j as [|j]; simpl in H.
              ** injection H as <-. unfold time_diff_of in H0. rewrite E0 in H0.
                 injection H0 as <-. apply Qclt_le_weak. eapply lt_ext_false_lt; eauto.
              ** now apply (Hmin j c' d').
           ++ intro Hj. destruct j as [|j]; simpl in H.
              ** injection H as <-. unfold time_diff_of in H0. rewrite E0 in H0.
                 injection H0 as <-. eapply lt_ext_false_lt; eauto.
              ** apply (Hmin j c' d'); auto. lia.
    + destruct (IH closest m) as [[Heq Hall]|(i & c & d & Hn & Hd & Heq & Hlt & Hmin)].
      * left. split; auto. intros c d [<-|Hin] Hd.
        -- unfold time_diff_of in Hd. rewrite E0 in Hd. discriminate.
        -- eauto.
      * right. exists (S i), c, d. repeat split; auto.
        -- destruct j as [|j]; simpl in H.
           ++ injection H as <-. unfold time_diff_of in H0. rewrite E0 in H0. discriminate.
           ++ now apply (Hmin j c' d').
        -- intro Hj. destruct j as [|j]; simpl in H.
           ++ injection H as <-. unfold time_diff_of in H0. rewrite E0 in H0. discriminate.
           ++ apply (Hmin j c' d'); auto. lia.
Qed.

(** A gt entry without a timestamp is never matched. *)
Lemma scan_closest_no_gt_time (l : list dict) (closest : option dict) (m : ext) :
  scan_closest None l closest m = (closest, m).
Proof.
  induction l as [|c rest IH]; simpl; [reflexivity|].
  destruct (time_unix c); exact IH.
Qed.

(** C1.  A ground-truth record with timestamp [T] and a converted dataset
    with at least one timestamped record: the aligner returns the record at
    the first index whose absolute time difference is the least one (every
    record is at least as far, every earlier record strictly farther); and
    when some converted record has [time_unix = T] exactly, the returned
    record has timestamp [T], the returned difference is zero and the match
    is accepted under every positive tolerance. *)
Theorem C1_aligner_exact_match_and_first_minimum
        (gt_entry : dict) (converted_data : list dict) (T : Qc) :
  time_unix gt_entry = Some T ->
  (exists c t, In c converted_data /\ time_unix c = Some t) ->
  exists i c t,
    nth_error converted_data i = Some c /\
    time_unix c = Some t /\
    find_closest (time_unix gt_entry) converted_data = (Some c, Fin (Qcabs (T - t))) /\
    (forall j c' t',
        nth_error converted_data j = Some c' -> time_unix c' = Some t' ->
        Qcabs (T - t) <= Qcabs (T - t') /\
        ((j < i)%nat -> Qcabs (T - t) < Qcabs (T - t'))) /\
    ((exists c0, In c0 converted_data /\ time_unix c0 = Some T) ->
     t = T /\ Qcabs (T - t) = 0 /\
     (forall j c', (j < i)%nat -> nth_error converted_data j = Some c' ->
                   time_unix c' <> Some T) /\
     forall tol, 0 < tol ->
                 accepted tol (find_closest (time_unix gt_entry) converted_data) = Some c).
Proof.
  intros HT (c1 & t1 & Hin1 & Ht1). rewrite HT. unfold find_closest.
  destruct (scan_closest_spec T converted_data None Inf)
    as [[_ Hall]|(i & c & d & Hn & Hd & Heq & _ & Hmin)].
  - specialize (Hall c1 (Qcabs (T - t1)) Hin1).
    unfold time_diff_of in Hall. rewrite Ht1 in Hall.
    specialize (Hall eq_refl). discriminate Hall.
  - unfold time_diff_of in Hd. destruct (time_unix c) as [t|] eqn:Et; [|discriminate].
    simpl in Hd. injection Hd as <-.
    assert (Hmin' : forall j c' t',
               nth_error converted_data j = Some c' -> time_unix c' = Some t' ->
               Qcabs (T - t) <= Qcabs (T - t') /\
               ((j < i)%nat -> Qcabs (T - t) < Qcabs (T - t'))).
    { intros j c' t' Hj Ht'. apply (Hmin j c'); auto.
      unfold time_diff_of. now rewrite Ht'. }
    exists i, c, t.
    split; [exact Hn|]. split; [exact Et|]. split; [exact Heq|].
    split; [exact Hmin'|].
    intros (c0 & Hin0 & Ht0).
    apply In_nth_error in Hin0. destruct Hin0 as [j0 Hj0].
    destruct (Hmin' j0 c0 T Hj0 Ht0) as [Hle _].
    rewrite Qcabs_self_diff in Hle.
    assert (Hz : Qcabs (T - t) = 0)
      by (apply Qcle_antisym; [exact Hle|apply Qcabs_nonneg]).
    split; [now apply Qcabs_diff_zero|]. split; [exact Hz|]. split.
    + intros j c' Hj Hc' Ht'.
      destruct (Hmin' j c' T Hc' Ht') as [_ Hlt]. specialize (Hlt Hj).
      rewrite Qcabs_self_diff, Hz in Hlt.
      exact (Qclt_not_eq _ _ Hlt eq_refl).
    + intros tol Htol. rewrite Heq. simpl.
      rewrite Hz. apply Qcltb_true_iff in Htol. now rewrite Htol.
Qed.

Lemma C1_aligner_witness :
  time_unix (ex_record (qnum 0 1) (qnum 7 1)) = Some (qnum 0 1) /\
  (exists c t, In c ex_conv_exact /\ time_unix c = Some t) /\
  exists i c t,
    nth_error ex_conv_exact i = Some c /\
    time_unix c = Some t /\
    find_closest (time_unix (ex_record (qnum 0 1) (qnum 7 1))) ex_conv_exact
    = (Some c, Fin (Qcabs (qnum 0 1 - t))).
Proof.
  assert (H1 : time_unix (ex_record (qnum 0 1) (qnum 7 1)) = Some (qnum 0 1))
    by reflexivity.
  assert (H2 : exists c t, In c ex_conv_exact /\ time_unix c = Some t).
  { exists (ex_record (qnum 1 1) (qnum 1 1)), (qnum 1 1).
    split; [left; reflexivity|reflexivity]. }
  split; [exact H1|]. split; [exact H2|].
  destruct (C1_aligner_exact_match_and_first_minimum
              (ex_record (qnum 0 1) (qnum 7 1)) ex_conv_exact (qnum 0 1) H1 H2)
    as (i & c & t & Hn & Ht & Hf & _).
  exists i, c, t. split; [exact Hn|]. split; [exact Ht|exact Hf].
Defined.

(** ** Field resolution *)

Lemma get_nested_field_number (data : json) (path : string) (q : Qc) :
  walk_fields data (split_dot path) = Some (JNum q) ->
  _get_nested_field data path = Some (JNum q).
Proof. unfold _get_nested_field. now intros ->. Qed.

(** [None] in each of the three failing cases of the walk: the current value
    is not a mapping, the segment is absent, or the terminal value is
    neither a number nor a boolean. *)
Lemma walk_fields_not_dict (value : json) (field : string) (rest : list string) :
  is_dict value = false -> walk_fields value (field :: rest) = None.
Proof. destruct value; simpl; intros H; try reflexivity; discriminate H. Qed.

Lemma walk_fields_absent (d : dict) (field : string) (rest : list string) :
  dict_get d field = None -> walk_fields (JDict d) (field :: rest) = None.
Proof. simpl. now intros ->. Qed.

Lemma get_nested_field_none (data : json) (path : string) :
  _get_nested_field data path = None <->
  walk_fields data (split_dot path) = None \/
  exists v, walk_fields data (split_dot path) = Some v /\ isinstance_int_float v = false.
Proof.
  unfold _get_nested_field.
  destruct (walk_fields data (split_dot path)) as [v|].
  - destruct (isinstance_int_float v) eqn:E; split.
    + discriminate.
    + intros [H|(v' & H & H')]; [discriminate|]. injection H as <-. congruence.
    + intros _. right. now exists v.
    + reflexivity.
  - split; auto.
Qed.

(** C3 (the code at the failing input).  A path whose walk ends in a JSON
    boolean resolves to that boolean: [isinstance(True, (int, float))]
    holds in Python, so the final test lets it through instead of
    returning [None]. *)
Theorem C3_boolean_terminal_is_returned (data : json) (path : string) (b : bool) :
  walk_fields data (split_dot path) = Some (JBool b) ->
  _get_nested_field data path = Some (JBool b) /\
  _get_nested_field data path <> None.
Proof.
  intros H. unfold _get_nested_field. rewrite H. simpl. split; [reflexivity|discriminate].
Qed.

Lemma C3_boolean_terminal_witness :
  walk_fields ex_flag_record (split_dot "status.valid") = Some (JBool true) /\
  _get_nested_field ex_flag_record "status.valid" = Some (JBool true) /\
  _get_nested_field ex_flag_record "status.valid" <> None.
Proof.
  split; [reflexivity|].
  apply (C3_boolean_terminal_is_returned ex_flag_record "status.valid" true).
  reflexivity.
Defined.

(** ** Signal fidelity *)

Section FidelityFacts.

Variable welch : list Qc -> nat -> list Qc.
Variable corrcoef : list Qc -> list Qc -> Qc.
Variable np_log10 : Qc -> Qc.

(** Whenever the length guard lets the call through, the attribute lookup
    [signal.welch] is made on the array and raises. *)
Lemma calculate_psd_raises (signal : list Qc) :
  (10 <= length signal)%nat ->
  Signal._calculate_psd welch signal = Raise AttributeError.
Proof.
  intros H. unfold Signal._calculate_psd.
  destruct (Nat.ltb_spec (length signal) 10) as [L|_]; [lia|].
  reflexivity.
Qed.

Lemma calculate_psd_short (signal : list Qc) :
  (length signal < 10)%nat -> Signal._calculate_psd welch signal = Ok [].
Proof.
  intros H. unfold Signal._calculate_psd.
  destruct (Nat.ltb_spec (length signal) 10) as [_|L]; [reflexivity|lia].
Qed.

(** C2 (the code on every IMU field with at least 10 samples).  With
    exactly 10 samples the guard [min_len > 10] skips the spectral
    comparison and no correlation is stored; with more than 10 samples
    [_calculate_psd] raises [AttributeError], which leaves the metric. *)
Theorem C2_psd_correlation_never_computed (gt_values conv_values : list Qc) :
  let min_len := Nat.min (length gt_values) (length conv_values) in
  (10 <= min_len)%nat ->
  (min_len = 10%nat ->
   exists r, Signal.field_signal_fidelity welch corrcoef np_log10 true gt_values conv_values
             = Ok (Some r) /\ Signal.field_freq_response r = None) /\
  ((10 < min_len)%nat ->
   Signal.field_signal_fidelity welch corrcoef np_log10 true gt_values conv_values
   = Raise AttributeError).
Proof.
  intros min_len Hmin.
  destruct gt_values as [|g gt']; [simpl in *; lia|].
  destruct conv_values as [|c conv']; [subst min_len; rewrite Nat.min_0_r in Hmin; lia|].
  unfold Signal.field_signal_fidelity. fold min_len.
  destruct (Nat.ltb_spec 0 min_len) as [_|L]; [|lia].
  split.
  - intros E. unfold Signal.frequency_response.
    destruct (Nat.ltb_spec 10 min_len) as [L|_]; [lia|].
    simpl. eexists. split; reflexivity.
  - intros L. unfold Signal.frequency_response.
    destruct (Nat.ltb_spec 10 min_len) as [_|L']; [|lia].
    simpl andb. cbv iota.
    rewrite calculate_psd_raises; [reflexivity|].
    rewrite length_firstn. subst min_len. simpl length in *. lia.
Qed.

End FidelityFacts.

Lemma C2_psd_correlation_witness :
  (10 <= Nat.min (length ex_signal_11) (length ex_signal_11))%nat /\
  ((Nat.min (length ex_signal_11) (length ex_signal_11) = 10%nat ->
    exists r, Signal.field_signal_fidelity ex_welch ex_corrcoef (fun x => x) true
                                           ex_signal_11 ex_signal_11
              = Ok (Some r) /\ Signal.field_freq_response r = None) /\
   ((10 < Nat.min (length ex_signal_11) (length ex_signal_11))%nat ->
    Signal.field_signal_fidelity ex_welch ex_corrcoef (fun x => x) true
                                 ex_signal_11 ex_signal_11
    = Raise AttributeError)).
Proof.
  split; [simpl; lia|].
  apply (C2_psd_correlation_never_computed ex_welch ex_corrcoef (fun x => x)
                                           ex_signal_11 ex_signal_11).
  simpl; lia.
Defined.

(** ** The coordinate transform *)

Section GeodesyFacts.

Import Geodesy.
Local Open Scope R_scope.

Lemma wgs84_f_bounds : 0 < wgs84_f < 1.
Proof. unfold wgs84_f. split; lra. Qed.

Lemma wgs84_one_minus_e_sq : 1 - wgs84_e_sq = (1 - wgs84_f) * (1 - wgs84_f).
Proof. unfold wgs84_e_sq. ring. Qed.

Lemma wgs84_e_sq_bounds : 0 < wgs84_e_sq < 1.
Proof.
  pose proof wgs84_f_bounds as [H0 H1]. unfold wgs84_e_sq. split; nra.
Qed.




End GeodesyFacts.

Section GeodesyTransform.

Import Geodesy.
Local Open Scope R_scope.

(** With zero altitude the result lies on the WGS-84 ellipsoid of
    semi-axes [a] and [a (1 - f)]. *)
Lemma lla_to_ecef_on_ellipsoid (lat lon : R) :
  exists x y z,
    _lla_to_ecef (Some lat) (Some lon) (Some 0) = Some (x, y, z) /\
    (x / wgs84_a) ^ 2 + (y / wgs84_a) ^ 2 + (z / (wgs84_a * (1 - wgs84_f))) ^ 2 = 1.
Proof.
  eexists _, _, _. split; [reflexivity|].
  pose proof wgs84_f_bounds as [Hf0 Hf1].
  pose proof wgs84_e_sq_bounds as [He0 He1].
  set (s := sin (radians lat)). set (c := cos (radians lat)).
  assert (Hsc : s ^ 2 + c ^ 2 = 1).
  { unfold s, c. pose proof (sin2_cos2 (radians lat)) as H.
    unfold Rsqr in H. rewrite <- H. ring. }
  assert (Hs2 : 0 <= s ^ 2 <= 1) by (split; [apply pow2_ge_0 | pose proof (pow2_ge_0 c); lra]).
  assert (Hd : 0 < 1 - wgs84_e_sq * s ^ 2) by nra.
  set (w := sqrt (1 - wgs84_e_sq * s ^ 2)).
  assert (Hw : 0 < w) by (apply sqrt_lt_R0; exact Hd).
  assert (Hww : w * w = 1 - wgs84_e_sq * s ^ 2) by (apply sqrt_sqrt; lra).
  assert (Ha : wgs84_a <> 0) by (unfold wgs84_a; lra).
  assert (Hl : (sin (radians lon)) ^ 2 + (cos (radians lon)) ^ 2 = 1).
  { pose proof (sin2_cos2 (radians lon)) as H. unfold Rsqr in H. rewrite <- H. ring. }
  rewrite wgs84_one_minus_e_sq.
  transitivity ((c ^ 2 * ((sin (radians lon)) ^ 2 + (cos (radians lon)) ^ 2)
                 + (1 - wgs84_f) * (1 - wgs84_f) * s ^ 2) / (w * w)).
  - field. repeat split; lra.
  - rewrite Hl, Hww, <- wgs84_one_minus_e_sq.
    apply Rmult_eq_reg_r with (1 - wgs84_e_sq * s ^ 2); [|lra].
    unfold Rdiv. rewrite Rmult_assoc, Rinv_l by lra.
    replace (c ^ 2) with (1 - s ^ 2) by lra. ring.
Qed.


End GeodesyTransform.

(** ** Result dictionaries *)

Lemma lookup_assign_same {V : Type} (d : list (string * V)) (k : string) (v : V) :
  lookup (assign d k v) k = Some v.
Proof.
  induction d as [|[k' v'] d IH]; simpl.
  - now rewrite String.eqb_refl.
  - destruct (String.eqb k k') eqn:E; simpl; rewrite E; [reflexivity|exact IH].
Qed.

Lemma lookup_assign_other {V : Type} (d : list (string * V)) (k k' : string) (v : V) :
  k' <> k -> lookup (assign d k v) k' = lookup d k'.
Proof.
  intros Hne. induction d as [|[k0 v0] d IH]; simpl.
  - destruct (String.eqb_spec k' k); [contradiction|reflexivity].
  - destruct (String.eqb_spec k k0) as [->|Hk]; simpl.
    + destruct (String.eqb_spec k' k0); [contradiction|reflexivity].
    + destruct (String.eqb_spec k' k0); [reflexivity|exact IH].
Qed.

(** ** Samples and the division by the ground-truth length *)


Lemma collect_app {A : Type} (body : A -> option Qc) (l1 l2 : list A) :
  collect body (l1 ++ l2) = collect body l1 ++ collect body l2.
Proof. unfold collect. apply flat_map_app. Qed.

Lemma collect_cons_none {A : Type} (body : A -> option Qc) (a : A) (l : list A) :
  body a = None -> collect body (a :: l) = collect body l.
Proof. unfold collect. simpl. now intros ->. Qed.

(** The division guarded by [if errors:] has a non-zero divisor. *)
Lemma truediv_samples_ok {A : Type} (body : A -> option Qc) (l : list A) :
  collect body l <> [] ->
  truediv (length (collect body l)) (length l)
  = Ok (Qc_of_nat (length (collect body l)) / Qc_of_nat (length l)).
Proof.
  destruct l as [|a l]; [intros H; now elim H|reflexivity].
Qed.

Section CalculatorFacts.

Variable np : numpy.

Lemma field_metrics_ok (gt conv : list dict) (field : string) :
  exists r, field_metrics np gt conv field = Ok r /\ keys r = field_metrics_keys.
Proof.
  unfold field_metrics, field_errors.
  destruct (collect (field_error_sample conv field) gt) as [|e errors] eqn:E.
  - eexists; split; reflexivity.
  - rewrite <- E. rewrite truediv_samples_ok by (rewrite E; discriminate).
    eexists; split; reflexivity.
Qed.

Lemma error_summary_ok {A : Type} (quantity : string) (body : A -> option Qc) (l : list A) :
  exists r, error_summary np quantity (collect body l) (length l) = Ok r /\
            keys r = summary_keys quantity.
Proof.
  unfold error_summary.
  destruct (collect body l) as [|e errors] eqn:E.
  - eexists; split; reflexivity.
  - rewrite <- E. rewrite truediv_samples_ok by (rewrite E; discriminate).
    eexists; split; reflexivity.
Qed.

(** The loop over [fields] ends normally; its result holds, for each
    listed field, the value computed for that field. *)
Lemma field_loop_ok (gt conv : list dict) (fields : list string) :
  forall results,
  exists res,
    field_loop np gt conv fields results = Ok res /\
    (forall f, In f fields ->
               exists r, field_metrics np gt conv f = Ok r /\ lookup res f = Some r) /\
    (forall f, ~ In f fields -> lookup res f = lookup results f).
Proof.
  induction fields as [|field rest IH]; intros results; simpl.
  - exists results. repeat split; auto. intros f [].
  - destruct (field_metrics_ok gt conv field) as (r & Hr & _). rewrite Hr. simpl.
    destruct (IH (assign results field r)) as (res & Hres & Hin & Hout).
    exists res. split; [exact Hres|]. split.
    + intros f [<-|Hf].
      * destruct (in_dec string_dec field rest) as [Hi|Hn]; [now apply Hin|].
        exists r. split; [exact Hr|]. rewrite Hout by exact Hn.
        apply lookup_assign_same.
      * now apply Hin.
    + intros f Hf. rewrite Hout by tauto.
      apply lookup_assign_other. intros ->. tauto.
Qed.

End CalculatorFacts.

(** C10.  No calculator divides by zero: each one returns normally on every
    input, the division [len(errors) / len(ground_truth)] being evaluated
    only for a non-empty [errors], hence a non-empty ground-truth list; on
    an empty ground-truth list each returns its all-[None] literal with
    [num_matched_points = 0] and [matched_percentage = 0]. *)
Theorem C10_matched_percentage_never_divides_by_zero (np : numpy) :
  (forall gt conv fields,
      exists res, _calculate_field_errors np gt conv fields = Ok res) /\
  (forall gt conv field, exists r, field_metrics np gt conv field = Ok r) /\
  (forall gt conv, exists r, calculate_position_error np gt conv = Ok r) /\
  (forall gt conv, exists r, calculate_orientation_error np gt conv = Ok r) /\
  (forall gt conv, exists r, calculate_acceleration_error np gt conv = Ok r) /\
  (forall gt conv field,
      field_errors gt conv field <> [] ->
      gt <> [] /\
      truediv (length (field_errors gt conv field)) (length gt)
      = Ok (Qc_of_nat (length (field_errors gt conv field)) / Qc_of_nat (length gt))) /\
  (forall gt conv,
      collect (position_error_sample np conv) gt <> [] ->
      gt <> [] /\
      truediv (length (collect (position_error_sample np conv) gt)) (length gt)
      = Ok (Qc_of_nat (length (collect (position_error_sample np conv) gt))
            / Qc_of_nat (length gt))) /\
  (forall conv field, field_metrics np [] conv field = Ok no_data_field_metrics) /\
  (forall conv fields field,
      In field fields ->
      exists res, _calculate_field_errors np [] conv fields = Ok res /\
                  lookup res field = Some no_data_field_metrics) /\
  (forall conv, calculate_position_error np [] conv
                = Ok (no_data_summary "position_error_m")) /\
  (forall conv, calculate_orientation_error np [] conv
                = Ok (no_data_summary "orientation_error_deg")) /\
  (forall conv, calculate_acceleration_error np [] conv
                = Ok (no_data_summary "acceleration_error_mps2")).
Proof.
  split.
  { intros gt conv fields.
    destruct (field_loop_ok np gt conv fields []) as (res & H & _). now exists res. }
  split.
  { intros gt conv field.
    destruct (field_metrics_ok np gt conv field) as (r & H & _). now exists r. }
  split.
  { intros gt conv.
    destruct (error_summary_ok np "position_error_m" (position_error_sample np conv) gt)
      as (r & H & _). now exists r. }
  split.
  { intros gt conv.
    destruct (error_summary_ok np "orientation_error_deg" (orientation_error_sample np conv) gt)
      as (r & H & _). now exists r. }
  split.
  { intros gt conv.
    destruct (error_summary_ok np "acceleration_error_mps2" (acceleration_error_sample np conv) gt)
      as (r & H & _). now exists r. }
  split.
  { intros gt conv field H. split.
    - intros ->. now apply H.
    - now apply truediv_samples_ok. }
  split.
  { intros gt conv H. split.
    - intros ->. now apply H.
    - now apply truediv_samples_ok. }
  split; [reflexivity|].
  split.
  { intros conv fields field Hin.
    destruct (field_loop_ok np [] conv fields []) as (res & H & Hin' & _).
    exists res. split; [exact H|].
    destruct (Hin' field Hin) as (r & Hr & Hl).
    rewrite Hl. f_equal. change (field_metrics np [] conv field) with
      (Ok no_data_field_metrics) in Hr. congruence. }
  repeat split.
Qed.

Lemma C10_division_witness :
  field_errors ex_gt_at_0 (ex_record (qnum 0 1) (qnum 9 1) :: nil) "x" <> [] /\
  ex_gt_at_0 <> [] /\
  is_ok (truediv (length (field_errors ex_gt_at_0 (ex_record (qnum 0 1) (qnum 9 1) :: nil) "x"))
                 (length ex_gt_at_0)) = true.
Proof.
  assert (H : field_errors ex_gt_at_0 (ex_record (qnum 0 1) (qnum 9 1) :: nil) "x" <> [])
    by (vm_compute; discriminate).
  split; [exact H|].
  destruct (C10_matched_percentage_never_divides_by_zero np_stub)
    as (_ & _ & _ & _ & _ & Hdiv & _).
  destruct (Hdiv ex_gt_at_0 (ex_record (qnum 0 1) (qnum 9 1) :: nil) "x" H) as [Hne Hq].
  split; [exact Hne|]. now rewrite Hq.
Defined.

(** ** Acceptance threshold *)

Lemma accepted_stale (tol : Qc) (m : option dict * ext) :
  ext_lt (snd m) tol = false -> accepted tol m = None.
Proof.
  destruct m as [[c|] d]; simpl; [|reflexivity]. now intros ->.
Qed.

Lemma collect_insert_none {A : Type} (body : A -> option Qc) (a : A) (l1 l2 : list A) :
  body a = None -> collect body (l1 ++ a :: l2) = collect body (l1 ++ l2).
Proof.
  intros H. rewrite !collect_app. now rewrite collect_cons_none.
Qed.

Lemma timestamp_errors_length (gts cts : list Qc) :
  length (timestamp_errors gts cts) = length gts.
Proof. unfold timestamp_errors. apply length_map. Qed.

(** C5 (as amended).  A ground-truth sample whose least time difference is
    not below the tolerance contributes no error sample to the field,
    orientation and acceleration errors (tolerance 0.1 s) and to the
    position error (tolerance 1.0 s): the error list is the one obtained
    without that record.  The timestamp error of the temporal metric
    applies no tolerance and keeps one sample per ground-truth timestamp. *)
Theorem C5_stale_match_is_dropped (np : numpy) (converted : list dict) (gt_entry : dict) :
  (ext_lt (snd (find_closest (time_unix gt_entry) converted)) tol_0_1 = false ->
   (forall field, field_error_sample converted field gt_entry = None) /\
   orientation_error_sample np converted gt_entry = None /\
   acceleration_error_sample np converted gt_entry = None /\
   (forall l1 l2 field,
       field_errors (l1 ++ gt_entry :: l2) converted field
       = field_errors (l1 ++ l2) converted field) /\
   (forall l1 l2,
       collect (orientation_error_sample np converted) (l1 ++ gt_entry :: l2)
       = collect (orientation_error_sample np converted) (l1 ++ l2)) /\
   (forall l1 l2,
       collect (acceleration_error_sample np converted) (l1 ++ gt_entry :: l2)
       = collect (acceleration_error_sample np converted) (l1 ++ l2))) /\
  (ext_lt (snd (find_closest (time_unix gt_entry) converted)) tol_1_0 = false ->
   position_error_sample np converted gt_entry = None /\
   (forall l1 l2,
       collect (position_error_sample np converted) (l1 ++ gt_entry :: l2)
       = collect (position_error_sample np converted) (l1 ++ l2))) /\
  (forall gt_timestamps conv_timestamps,
      length (timestamp_errors gt_timestamps conv_timestamps) = length gt_timestamps).
Proof.
  split; [|split].
  - intros H.
    assert (Hf : forall field, field_error_sample converted field gt_entry = None).
    { intros field. unfold field_error_sample. now rewrite accepted_stale. }
    assert (Ho : orientation_error_sample np converted gt_entry = None).
    { unfold orientation_error_sample. now rewrite accepted_stale. }
    assert (Ha : acceleration_error_sample np converted gt_entry = None).
    { unfold acceleration_error_sample. now rewrite accepted_stale. }
    split; [exact Hf|]. split; [exact Ho|]. split; [exact Ha|].
    split; [|split]; intros; unfold field_errors; now apply collect_insert_none.
  - intros H.
    assert (Hp : position_error_sample np converted gt_entry = None).
    { unfold position_error_sample. now rewrite accepted_stale. }
    split; [exact Hp|]. intros. now apply collect_insert_none.
  - apply timestamp_errors_length.
Qed.

Lemma C5_stale_match_witness :
  ext_lt (snd (find_closest (time_unix (ex_record (qnum 0 1) (qnum 7 1)))
                            ex_conv_at_5)) tol_1_0 = false /\
  position_error_sample np_stub ex_conv_at_5 (ex_record (qnum 0 1) (qnum 7 1)) = None.
Proof.
  split; [reflexivity|].
  apply (C5_stale_match_is_dropped np_stub ex_conv_at_5
                                   (ex_record (qnum 0 1) (qnum 7 1))).
  reflexivity.
Defined.

(** C5 (counterexample).  Ground truth at [t = 0], converted at [t = 5]:
    the least difference, 5 s, is not below 0.1 s, and the timestamp error
    of the temporal metric still counts the sample (5 000 000 us). *)
Lemma C5_temporal_metric_keeps_stale_sample :
  ext_lt (snd (find_closest (Some (qnum 0 1)) ex_conv_at_5)) tol_0_1 = false /\
  map this (timestamp_errors (timestamps ex_gt_at_0) (timestamps ex_conv_at_5))
  = ((5000000 # 1)%Q :: nil) /\
  option_map (map (fun kv => fst kv))
             (timestamp_conversion_error np_stub ex_gt_at_0 ex_conv_at_5)
  = Some ["mean_error_us"; "max_error_us"; "min_error_us"; "std_error_us"].
Proof. vm_compute. repeat split. Qed.

(** ** Missing fields *)





(** ** An empty converted dataset *)

Lemma collect_all_none {A : Type} (body : A -> option Qc) (l : list A) :
  (forall a, body a = None) -> collect body l = [].
Proof.
  intros H. unfold collect. induction l as [|a l IH]; simpl; [reflexivity|].
  now rewrite H, IH.
Qed.

Lemma keys_assign {V : Type} (d : list (string * V)) (k : string) (v : V) :
  keys (assign d k v) = add_key (keys d) k.
Proof.
  unfold add_key. induction d as [|[k' v'] d IH]; simpl; [reflexivity|].
  destruct (String.eqb k k'); simpl; [reflexivity|].
  rewrite IH. now destruct (existsb (String.eqb k) (keys d)).
Qed.

Section ContentFacts.

Variable mutual_information : list Qc -> list Qc -> nat -> R.

(** Without converted values no field passes the guard of the loop. *)
Lemma content_loop_no_conv_fields (gt conv : list dict) (gt_fields : field_values)
      (fields : list string) :
  forall ratios infos,
    Information.content_loop mutual_information gt conv gt_fields [] fields ratios infos
    = (ratios, infos).
Proof.
  induction fields as [|field rest IH]; intros ratios infos; simpl; [reflexivity|].
  destruct (lookup gt_fields field) as [[|v vs]|]; apply IH.
Qed.

(** The fields that receive an entry are those with values on both sides. *)
Lemma content_loop_keys (gt conv : list dict) (gt_fields conv_fields : field_values)
      (fields : list string) :
  forall ratios infos,
    keys (fst (Information.content_loop mutual_information gt conv gt_fields conv_fields
                                        fields ratios infos))
    = fold_left (fun ks f => if has_values gt_fields f && has_values conv_fields f
                             then add_key ks f else ks)
                fields (keys ratios).
Proof.
  induction fields as [|field rest IH]; intros ratios infos; [reflexivity|].
  cbn [fold_left Information.content_loop].
  assert (Hg : forall d, has_values d field
                         = match lookup d field with Some (_ :: _) => true | _ => false end)
    by reflexivity.
  rewrite (Hg gt_fields), (Hg conv_fields). clear Hg.
  destruct (lookup gt_fields field) as [[|gv gvs]|];
    cbn [andb]; try apply IH.
  destruct (lookup conv_fields field) as [[|cv cvs]|];
    cbn [andb]; try apply IH.
  destruct (align_values gt conv (gv :: gvs) (cv :: cvs) 0) as [ag ac].
  rewrite IH, keys_assign. reflexivity.
Qed.

Lemma information_content_empty_converted (gt : list dict) :
  Information.information_content mutual_information gt []
  = {| Information.average_entropy_ratio := None;
       Information.field_entropy_ratios := [];
       Information.average_mutual_information := None;
       Information.field_mutual_information := [] |}.
Proof.
  unfold Information.information_content. simpl collect_conv_fields.
  now rewrite content_loop_no_conv_fields.
Qed.

End ContentFacts.

(** C6 (as amended).  With an empty converted record list, whatever the
    ground truth: every per-field error result and every position,
    orientation and acceleration result is returned without an exception
    and is the no-data literal, [num_matched_points = 0],
    [matched_percentage = 0] and [None] under every other key, and the key
    set of these results is the same on every input.  The
    information-content result then has [None] averages and no entry for
    any field, and the timestamp error has no entry for the file. *)
Theorem C6_empty_converted_dataset
        (np : numpy) (mutual_information : list Qc -> list Qc -> nat -> R) :
  (forall gt field, field_metrics np gt [] field = Ok no_data_field_metrics) /\
  (forall gt fields field,
      In field fields ->
      exists res, _calculate_field_errors np gt [] fields = Ok res /\
                  lookup res field = Some no_data_field_metrics) /\
  (forall gt, calculate_position_error np gt [] = Ok (no_data_summary "position_error_m")) /\
  (forall gt, calculate_orientation_error np gt []
              = Ok (no_data_summary "orientation_error_deg")) /\
  (forall gt, calculate_acceleration_error np gt []
              = Ok (no_data_summary "acceleration_error_mps2")) /\
  (forall gt conv field,
      exists r, field_metrics np gt conv field = Ok r /\ keys r = field_metrics_keys) /\
  (forall gt conv,
      exists r, calculate_position_error np gt conv = Ok r /\
                keys r = summary_keys "position_error_m") /\
  (forall gt conv,
      exists r, calculate_orientation_error np gt conv = Ok r /\
                keys r = summary_keys "orientation_error_deg") /\
  (forall gt conv,
      exists r, calculate_acceleration_error np gt conv = Ok r /\
                keys r = summary_keys "acceleration_error_mps2") /\
  (forall gt, Information.information_content mutual_information gt []
              = {| Information.average_entropy_ratio := None;
                   Information.field_entropy_ratios := [];
                   Information.average_mutual_information := None;
                   Information.field_mutual_information := [] |}) /\
  (forall gt, timestamp_conversion_error np gt [] = None).
Proof.
  assert (Hfm : forall gt field, field_metrics np gt [] field = Ok no_data_field_metrics).
  { intros gt field. unfold field_metrics, field_errors.
    now rewrite collect_all_none. }
  split; [exact Hfm|].
  split.
  { intros gt fields field Hin.
    destruct (field_loop_ok np gt [] fields []) as (res & H & Hin' & _).
    exists res. split; [exact H|].
    destruct (Hin' field Hin) as (r & Hr & Hl).
    rewrite Hl. rewrite Hfm in Hr. congruence. }
  split.
  { intros gt. unfold calculate_position_error. now rewrite collect_all_none. }
  split.
  { intros gt. unfold calculate_orientation_error. now rewrite collect_all_none. }
  split.
  { intros gt. unfold calculate_acceleration_error. now rewrite collect_all_none. }
  split; [intros; apply field_metrics_ok|].
  split; [intros; apply error_summary_ok|].
  split; [intros; apply error_summary_ok|].
  split; [intros; apply error_summary_ok|].
  split; [apply information_content_empty_converted|].
  intros gt. unfold timestamp_conversion_error. simpl.
  now destruct (timestamps gt).
Qed.

Lemma C6_empty_converted_witness :
  In "x" ("x" :: "dop.hdop" :: nil) /\
  exists res,
    _calculate_field_errors np_stub ex_gt_ramp [] ("x" :: "dop.hdop" :: nil) = Ok res /\
    lookup res "x" = Some no_data_field_metrics.
Proof.
  assert (Hin : In "x" ("x" :: "dop.hdop" :: nil)) by (left; reflexivity).
  split; [exact Hin|].
  destruct (C6_empty_converted_dataset np_stub ex_mutual_information) as (_ & H & _).
  exact (H ex_gt_ramp ("x" :: "dop.hdop" :: nil) "x" Hin).
Defined.

(** The fields with an entropy-ratio entry, computed from the value lists
    alone. *)
Lemma information_content_ratio_keys
      (mutual_information : list Qc -> list Qc -> nat -> R) (gt conv : list dict) :
  keys (Information.field_entropy_ratios
          (Information.information_content mutual_information gt conv))
  = let gt_fields := collect_gt_fields gt in
    let conv_fields := collect_conv_fields gt_fields conv in
    fold_left (fun ks f => if has_values gt_fields f && has_values conv_fields f
                           then add_key ks f else ks)
              (keys gt_fields) [].
Proof.
  unfold Information.information_content. cbv zeta.
  rewrite <- (content_loop_keys mutual_information gt conv _ _ _ [] []).
  now destruct (Information.content_loop _ _ _ _ _ _ _ _).
Qed.

(** C6 (counterexample).  For the information-content metric the key set
    depends on the data: against an empty converted list the per-field
    entropy-ratio result has no key at all, against the ground truth
    itself it has the keys [time_unix] and [x]; and for the same pair of
    inputs the timestamp error has no result for the file. *)
Lemma C6_information_content_keys_depend_on_data :
  length ex_gt_ramp = 10%nat /\
  keys (Information.field_entropy_ratios
          (Information.information_content ex_mutual_information ex_gt_ramp []))
  = [] /\
  keys (Information.field_entropy_ratios
          (Information.information_content ex_mutual_information ex_gt_ramp ex_gt_ramp))
  = ["time_unix"; "x"] /\
  timestamp_conversion_error np_stub ex_gt_ramp [] = None.
Proof.
  split; [reflexivity|].
  split; [now rewrite information_content_empty_converted|].
  split.
  - rewrite information_content_ratio_keys. vm_compute. reflexivity.
  - vm_compute. reflexivity.
Qed.

(** ** Statistics of a permuted sample *)



Lemma Qcmax_cases (x y : Qc) :
  (Qcmax x y = x \/ Qcmax x y = y) /\ x <= Qcmax x y /\ y <= Qcmax x y.
Proof.
  unfold Qcmax. destruct (Qcltb x y) eqn:E.
  - apply Qcltb_true_iff in E. repeat split; auto.
    + now apply Qclt_le_weak.
    + apply Qcle_refl.
  - apply Qcltb_false_iff in E. repeat split; auto. apply Qcle_refl.
Qed.

Lemma Qcmin_cases (x y : Qc) :
  (Qcmin x y = x \/ Qcmin x y = y) /\ Qcmin x y <= x /\ Qcmin x y <= y.
Proof.
  unfold Qcmin. destruct (Qcltb y x) eqn:E.
  - apply Qcltb_true_iff in E. repeat split; auto.
    + now apply Qclt_le_weak.
    + apply Qcle_refl.
  - apply Qcltb_false_iff in E. repeat split; auto. apply Qcle_refl.
Qed.

Lemma fold_Qcmax_spec (r : list Qc) :
  forall x, let m := fold_left Qcmax r x in
            In m (x :: r) /\ forall y, In y (x :: r) -> y <= m.
Proof.
  induction r as [|a r IH]; intros x; simpl.
  - split; [now left|]. intros y [<-|[]]. apply Qcle_refl.
  - destruct (IH (Qcmax x a)) as [Hin Hle]. simpl in Hin, Hle.
    destruct (Qcmax_cases x a) as ([E|E] & Hx & Ha).
    + split.
      * destruct Hin as [Hin|Hin]; [left; congruence|right; now right].
      * intros y [<-|[<-|Hy]].
        -- eapply Qcle_trans; [exact Hx|]. apply Hle. now left.
        -- eapply Qcle_trans; [exact Ha|]. apply Hle. now left.
        -- apply Hle. now right.
    + split.
      * destruct Hin as [Hin|Hin]; [right; left; congruence|right; now right].
      * intros y [<-|[<-|Hy]].
        -- eapply Qcle_trans; [exact Hx|]. apply Hle. now left.
        -- eapply Qcle_trans; [exact Ha|]. apply Hle. now left.
        -- apply Hle. now right.
Qed.

Lemma fold_Qcmin_spec (r : list Qc) :
  forall x, let m := fold_left Qcmin r x in
            In m (x :: r) /\ forall y, In y (x :: r) -> m <= y.
Proof.
  induction r as [|a r IH]; intros x; simpl.
  - split; [now left|]. intros y [<-|[]]. apply Qcle_refl.
  - destruct (IH (Qcmin x a)) as [Hin Hle]. simpl in Hin, Hle.
    destruct (Qcmin_cases x a) as ([E|E] & Hx & Ha).
    + split.
      * destruct Hin as [Hin|Hin]; [left; congruence|right; now right].
      * intros y [<-|[<-|Hy]].
        -- eapply Qcle_trans; [|exact Hx]. apply Hle. now left.
        -- eapply Qcle_trans; [|exact Ha]. apply Hle. now left.
        -- apply Hle. now right.
    + split.
      * destruct Hin as [Hin|Hin]; [right; left; congruence|right; now right].
      * intros y [<-|[<-|Hy]].
        -- eapply Qcle_trans; [|exact Hx]. apply Hle. now left.
        -- eapply Qcle_trans; [|exact Ha]. apply Hle. now left.
        -- apply Hle. now right.
Qed.

(** [np_max] is the greatest element and [np_min] the least one. *)
Lemma np_max_spec (l : list Qc) :
  l <> [] -> In (np_max l) l /\ forall y, In y l -> y <= np_max l.
Proof.
  destruct l as [|x r]; [now intros H|intros _]. apply fold_Qcmax_spec.
Qed.

Lemma np_min_spec (l : list Qc) :
  l <> [] -> In (np_min l) l /\ forall y, In y l -> np_min l <= y.
Proof.
  destruct l as [|x r]; [now intros H|intros _]. apply fold_Qcmin_spec.
Qed.





Lemma collect_ext_in {A : Type} (f g : A -> option Qc) (l : list A) :
  (forall a, In a l -> f a = g a) -> collect f l = collect g l.
Proof.
  intros H. unfold collect. induction l as [|a l IH]; simpl; [reflexivity|].
  rewrite (H a) by now left. f_equal. apply IH. intros b Hb. apply H. now right.
Qed.

(** ** Reordering the two record lists *)



Lemma distinctb_NoDup (l : list Qc) : distinctb l = true -> NoDup l.
Proof.
  induction l as [|x r IH]; simpl; intros H; [constructor|].
  apply andb_prop in H. destruct H as [Hx Hr].
  constructor; [|now apply IH].
  intros Hin. apply negb_true_iff in Hx.
  assert (Hex : existsb (Qc_eq_bool x) r = true).
  { apply existsb_exists. exists x. split; [exact Hin|].
    unfold Qc_eq_bool. now destruct (Qc_eq_dec x x). }
  congruence.
Qed.

Lemma collect_In {A : Type} (body : A -> option Qc) (l : list A) (a : A) (d : Qc) :
  In a l -> body a = Some d -> In d (collect body l).
Proof.
  intros Hin Hb. unfold collect. apply in_flat_map. exists a.
  split; [exact Hin|]. rewrite Hb. now left.
Qed.

(** With pairwise distinct samples, two elements with the same sample are
    the same element. *)
Lemma collect_NoDup_inj {A : Type} (body : A -> option Qc) (l : list A) :
  NoDup (collect body l) ->
  forall a1 a2 d, In a1 l -> In a2 l -> body a1 = Some d -> body a2 = Some d -> a1 = a2.
Proof.
  induction l as [|a l IH]; intros Hnd a1 a2 d H1 H2 Hb1 Hb2; [now destruct H1|].
  assert (Hnd' : NoDup (collect body l)).
  { unfold collect in *. simpl in Hnd. now apply NoDup_app_remove_l in Hnd. }
  assert (Hout : forall x, In x l -> body a = Some d -> body x = Some d -> False).
  { intros x Hx Ha Hbx. unfold collect in Hnd. simpl in Hnd. rewrite Ha in Hnd.
    simpl in Hnd. inversion Hnd as [|? ? Hnotin _]; subst.
    apply Hnotin. exact (collect_In body l x d Hx Hbx). }
  destruct H1 as [<-|H1], H2 as [<-|H2].
  - reflexivity.
  - exfalso. exact (Hout a2 H2 Hb1 Hb2).
  - exfalso. exact (Hout a1 H1 Hb2 Hb1).
  - exact (IH Hnd' a1 a2 d H1 H2 Hb1 Hb2).
Qed.



Lemma field_loop_ext (np : numpy) (gt gt' conv conv' : list dict) (fields : list string) :
  (forall field, field_metrics np gt' conv' field = field_metrics np gt conv field) ->
  forall results,
    field_loop np gt' conv' fields results = field_loop np gt conv fields results.
Proof.
  intros H. induction fields as [|field rest IH]; intros results; simpl; [reflexivity|].
  rewrite H. destruct (field_metrics np gt conv field); simpl; [apply IH|reflexivity].
Qed.




(** ** Entropy of a histogram *)

Section EntropyFacts.

Import Information.
Local Open Scope R_scope.

Lemma entr_0 : entr 0 = 0.
Proof. unfold entr. destruct (Rlt_dec 0 0); [lra|reflexivity]. Qed.

Lemma entr_1 : entr 1 = 0.
Proof. unfold entr. destruct (Rlt_dec 0 1); [rewrite ln_1; ring|reflexivity]. Qed.

Lemma entr_pos (p : R) : 0 < p < 1 -> 0 < entr p.
Proof.
  intros [H0 H1]. unfold entr. destruct (Rlt_dec 0 p) as [_|N]; [|contradiction].
  pose proof (ln_increasing p 1 H0 H1) as H. rewrite ln_1 in H. nra.
Qed.

Lemma entr_nonneg (p : R) : 0 <= p <= 1 -> 0 <= entr p.
Proof.
  intros [H0 H1].
  destruct (Req_dec p 0) as [->|N0]; [rewrite entr_0; lra|].
  destruct (Req_dec p 1) as [->|N1]; [rewrite entr_1; lra|].
  apply Rlt_le. apply entr_pos. lra.
Qed.

Lemma Rsum_nonneg (l : list R) : (forall x, In x l -> 0 <= x) -> 0 <= Rsum l.
Proof.
  induction l as [|x l IH]; simpl; intros H; [lra|].
  pose proof (H x (or_introl eq_refl)).
  assert (0 <= Rsum l) by (apply IH; intros y Hy; apply H; now right). lra.
Qed.



Lemma hist_total_ge (hist : list nat) (c : nat) :
  In c hist -> (c <= hist_total hist)%nat.
Proof.
  induction hist as [|a hist IH]; simpl; intros H; [contradiction|].
  destruct H as [->|H]; [lia|]. specialize (IH H). lia.
Qed.

Lemma Rsum_scaled (hist : list nat) (t : R) :
  Rsum (map (fun c => INR c / t) hist) = INR (hist_total hist) / t.
Proof.
  induction hist as [|a hist IH]; simpl.
  - unfold Rdiv. ring.
  - rewrite IH, plus_INR. unfold Rdiv. ring.
Qed.

(** The second normalisation of [scipy.stats.entropy] changes nothing: the
    entropy is the sum of [entr] over the relative frequencies. *)
Lemma hist_entropy_eq (hist : list nat) :
  hist_entropy hist
  = Rsum (map (fun c => entr (INR c / INR (hist_total hist))) hist).
Proof.
  unfold hist_entropy, scipy_entropy. rewrite map_map. f_equal.
  apply map_ext_in. intros c Hc. f_equal.
  rewrite Rsum_scaled.
  destruct (Nat.eq_dec (hist_total hist) 0) as [E|N].
  - pose proof (hist_total_ge hist c Hc) as Hle. rewrite E in Hle.
    assert (c = 0%nat) by lia. subst c. simpl. unfold Rdiv. ring.
  - assert (INR (hist_total hist) <> 0) by (now apply not_0_INR).
    now field.
Qed.

Lemma frequency_range (hist : list nat) (c : nat) :
  In c hist -> 0 <= INR c / INR (hist_total hist) <= 1.
Proof.
  intros Hc. pose proof (hist_total_ge hist c Hc) as Hle.
  destruct (Nat.eq_dec (hist_total hist) 0) as [E|N].
  - rewrite E in *. assert (c = 0%nat) by lia. subst c. simpl. unfold Rdiv.
    rewrite Rmult_0_l. lra.
  - assert (Ht : 0 < INR (hist_total hist)) by (apply lt_0_INR; lia).
    pose proof (pos_INR c) as Hc0. apply le_INR in Hle.
    split.
    + apply Rmult_le_pos; [exact Hc0|]. apply Rlt_le. now apply Rinv_0_lt_compat.
    + apply Rmult_le_reg_r with (INR (hist_total hist)); [exact Ht|].
      unfold Rdiv. rewrite Rmult_assoc, Rinv_l by lra. lra.
Qed.

Lemma hist_entropy_nonneg (hist : list nat) : 0 <= hist_entropy hist.
Proof.
  rewrite hist_entropy_eq. apply Rsum_nonneg.
  intros x Hx. apply in_map_iff in Hx. destruct Hx as (c & <- & Hc).
  apply entr_nonneg. now apply frequency_range.
Qed.



End EntropyFacts.

(** ** The histogram of a value list *)









(** ** Entropy ratio of a value list against itself *)

Section EntropyRatioFacts.

Import Information.




End EntropyRatioFacts.

(** ** The per-field value lists *)

Lemma lookup_app {V : Type} (d1 d2 : list (string * V)) (k : string) :
  lookup (d1 ++ d2) k = match lookup d1 k with Some v => Some v | None => lookup d2 k end.
Proof.
  induction d1 as [|[k' v'] d1 IH]; simpl; [reflexivity|].
  now destruct (String.eqb k k').
Qed.

Lemma lookup_ensure_key (d : field_values) (f k : string) :
  lookup (ensure_key d f) k
  = if String.eqb k f then Some (get_list d k) else lookup d k.
Proof.
  unfold ensure_key, get_list.
  destruct (String.eqb_spec k f) as [->|N].
  - destruct (lookup d f) eqn:E; [exact E|].
    rewrite lookup_app, E. simpl. now rewrite String.eqb_refl.
  - destruct (lookup d f) eqn:E; [reflexivity|].
    rewrite lookup_app. destruct (lookup d k); [reflexivity|].
    simpl. destruct (String.eqb_spec k f); [contradiction|reflexivity].
Qed.

Lemma lookup_append_value (d : field_values) (f k : string) (v : Qc) :
  lookup (append_value d f v) k
  = if String.eqb k f then option_map (fun l => l ++ v :: nil) (lookup d k)
    else lookup d k.
Proof.
  induction d as [|[k' l] d IH]; simpl.
  - now destruct (String.eqb k f).
  - destruct (String.eqb_spec f k') as [->|N]; simpl.
    + destruct (String.eqb_spec k k') as [->|N']; [reflexivity|reflexivity].
    + rewrite IH. destruct (String.eqb_spec k k') as [->|N'].
      * destruct (String.eqb_spec k' f); [congruence|reflexivity].
      * reflexivity.
Qed.

Lemma lookup_record_field (entry : dict) (d : field_values) (f k : string) :
  lookup (record_field entry d f) k
  = if String.eqb k f then Some (get_list d k ++ contribution entry k)
    else lookup d k.
Proof.
  unfold record_field, contribution.
  destruct (String.eqb_spec k f) as [->|N].
  - destruct (_get_nested_field (JDict entry) f) as [v|].
    + rewrite lookup_append_value, String.eqb_refl, lookup_ensure_key, String.eqb_refl.
      reflexivity.
    + rewrite lookup_ensure_key, String.eqb_refl, app_nil_r. reflexivity.
  - destruct (_get_nested_field (JDict entry) f) as [v|].
    + rewrite lookup_append_value. destruct (String.eqb_spec k f); [contradiction|].
      rewrite lookup_ensure_key. destruct (String.eqb_spec k f); [contradiction|reflexivity].
    + rewrite lookup_ensure_key. destruct (String.eqb_spec k f); [contradiction|reflexivity].
Qed.

Lemma has_key_get_list (d : field_values) (k : string) :
  lookup d k = if has_key d k then Some (get_list d k) else None.
Proof. unfold has_key, get_list. now destruct (lookup d k). Qed.

(** One record. *)
Lemma lookup_record_fields (entry : dict) (fields : list string) (k : string) :
  forall d,
    lookup (fold_left (record_field entry) fields d) k
    = if has_key d k || existsb (String.eqb k) fields
      then Some (get_list d k ++ entry_values fields entry k)
      else None.
Proof.
  induction fields as [|f fields IH]; intros d; simpl.
  - rewrite orb_false_r, app_nil_r. apply has_key_get_list.
  - rewrite IH. unfold has_key, get_list. rewrite !lookup_record_field.
    destruct (String.eqb_spec k f) as [->|N]; simpl.
    + unfold get_list. now rewrite orb_true_r, <- app_assoc.
    + reflexivity.
Qed.

Lemma entry_values_absent (fields : list string) (entry : dict) (k : string) :
  existsb (String.eqb k) fields = false -> entry_values fields entry k = [].
Proof.
  unfold entry_values. induction fields as [|f fields IH]; simpl; [reflexivity|].
  intros H. apply orb_false_elim in H. destruct H as [H1 H2].
  now rewrite H1, IH.
Qed.

(** All records: [fields_of entry] is the list the inner loop runs over. *)
Lemma lookup_collected (fields_of : dict -> list string) (data : list dict) (k : string) :
  forall d,
    lookup (fold_left (fun d entry => fold_left (record_field entry) (fields_of entry) d)
                      data d) k
    = if has_key d k || existsb (fun entry => existsb (String.eqb k) (fields_of entry)) data
      then Some (get_list d k
                 ++ flat_map (fun entry => entry_values (fields_of entry) entry k) data)
      else None.
Proof.
  induction data as [|e data IH]; intros d; simpl.
  - rewrite orb_false_r, app_nil_r. apply has_key_get_list.
  - rewrite IH. unfold has_key at 1, get_list at 1. rewrite lookup_record_fields.
    destruct (has_key d k || existsb (String.eqb k) (fields_of e))%bool eqn:E.
    + simpl. rewrite orb_assoc, E. simpl. now rewrite app_assoc.
    + simpl. rewrite orb_assoc, E. simpl.
      apply orb_false_elim in E. destruct E as [E1 E2].
      unfold get_list. rewrite has_key_get_list, E1.
      now rewrite (entry_values_absent _ _ _ E2).
Qed.

Lemma existsb_eqb_false (fields : list string) (k : string) :
  existsb (String.eqb k) fields = false <-> ~ In k fields.
Proof.
  split.
  - intros H Hin. assert (existsb (String.eqb k) fields = true).
    { apply existsb_exists. exists k. split; [exact Hin|apply String.eqb_refl]. }
    congruence.
  - intros H. destruct (existsb (String.eqb k) fields) eqn:E; [|reflexivity].
    apply existsb_exists in E. destruct E as (x & Hx & Hk).
    apply String.eqb_eq in Hk. subst x. contradiction.
Qed.

Lemma existsb_eqb_true (fields : list string) (k : string) :
  existsb (String.eqb k) fields = true <-> In k fields.
Proof.
  split.
  - intros E. apply existsb_exists in E. destruct E as (x & Hx & Hk).
    apply String.eqb_eq in Hk. now subst x.
  - intros Hin. apply existsb_exists. exists k. split; [exact Hin|apply String.eqb_refl].
Qed.


(** A field listed once is recorded once. *)
Lemma entry_values_listed_once (fields : list string) (entry : dict) (k : string) :
  count_occ string_dec fields k = 1%nat ->
  entry_values fields entry k = contribution entry k.
Proof.
  unfold entry_values. induction fields as [|f fields IH]; simpl; [discriminate|].
  destruct (string_dec f k) as [->|N].
  - intros H. rewrite String.eqb_refl.
    assert (Hnot : ~ In k fields).
    { apply (count_occ_not_In string_dec). lia. }
    apply existsb_eqb_false in Hnot. apply (entry_values_absent _ entry) in Hnot.
    unfold entry_values in Hnot. rewrite Hnot. apply app_nil_r.
  - intros H. destruct (String.eqb_spec k f) as [->|_]; [contradiction|].
    simpl. now apply IH.
Qed.

Lemma count_occ_NoDup_In (fields : list string) (k : string) :
  NoDup fields -> In k fields -> count_occ string_dec fields k = 1%nat.
Proof.
  intros Hnd Hin. pose proof (proj1 (NoDup_count_occ string_dec fields) Hnd k) as Hc.
  apply (count_occ_In string_dec) in Hin. lia.
Qed.

Lemma lookup_has_key_In {V : Type} (d : list (string * V)) (k : string) :
  has_key d k = true <-> In k (keys d).
Proof.
  unfold has_key, keys. induction d as [|[k' v] d IH]; simpl.
  - split; [discriminate|contradiction].
  - destruct (String.eqb_spec k k') as [->|N].
    + split; [now left|reflexivity].
    + rewrite IH. split; [now right|]. intros [E|H]; [congruence|exact H].
Qed.

Lemma keys_append_value (d : field_values) (f : string) (v : Qc) :
  keys (append_value d f v) = keys d.
Proof.
  unfold keys. induction d as [|[k l] d IH]; simpl; [reflexivity|].
  destruct (String.eqb f k); simpl; [reflexivity|now rewrite IH].
Qed.

Lemma NoDup_keys_ensure_key (d : field_values) (f : string) :
  NoDup (keys d) -> NoDup (keys (ensure_key d f)).
Proof.
  intros H. unfold ensure_key. destruct (lookup d f) eqn:E; [exact H|].
  unfold keys. rewrite map_app. simpl. fold (keys d).
  apply NoDup_app; [exact H|repeat constructor; intros []|].
  intros x Hx [<-|[]].
  apply lookup_has_key_In in Hx. unfold has_key in Hx. now rewrite E in Hx.
Qed.

Lemma NoDup_keys_record_field (entry : dict) (d : field_values) (f : string) :
  NoDup (keys d) -> NoDup (keys (record_field entry d f)).
Proof.
  intros H. unfold record_field.
  destruct (_get_nested_field (JDict entry) f).
  - rewrite keys_append_value. now apply NoDup_keys_ensure_key.
  - now apply NoDup_keys_ensure_key.
Qed.

Lemma NoDup_keys_collect_gt_fields (gt : list dict) : NoDup (keys (collect_gt_fields gt)).
Proof.
  unfold collect_gt_fields.
  assert (H : forall d, NoDup (keys d) ->
                        NoDup (keys (fold_left
                                       (fun d entry =>
                                          fold_left (record_field entry)
                                                    (_get_numerical_fields (JDict entry) "") d)
                                       gt d))).
  { induction gt as [|e gt IH]; intros d Hd; cbn [fold_left]; [exact Hd|].
    apply IH.
    generalize (_get_numerical_fields (JDict e) ""). intros fields. revert d Hd.
    induction fields as [|f fields IHf]; intros d Hd; simpl; [exact Hd|].
    apply IHf. now apply NoDup_keys_record_field. }
  apply H. constructor.
Qed.


Section ContentLookup.

Variable mutual_information : list Qc -> list Qc -> nat -> R.



End ContentLookup.




(** * Further properties of the embedded code *)

(** ** Counts as rationals *)

Lemma Qc_of_nat_S (n : nat) : Qc_of_nat (S n) = Qc_of_nat n + 1.
Proof.
  unfold Qc_of_nat, Qcplus. apply Q2Qc_eq_iff. unfold Q2Qc. cbn [this].
  rewrite !Qred_correct. rewrite <- Nat.add_1_r, Nat2Z.inj_add.
  rewrite inject_Z_plus. reflexivity.
Qed.

Lemma Qc_of_nat_0 : Qc_of_nat 0 = 0.
Proof. apply Qc_is_canon. reflexivity. Qed.

Lemma Qc_of_nat_nonneg (n : nat) : 0 <= Qc_of_nat n.
Proof.
  induction n as [|n IH]; [rewrite Qc_of_nat_0; apply Qcle_refl|].
  rewrite Qc_of_nat_S. apply Qcle_trans with (Qc_of_nat n + 0).
  - now replace (Qc_of_nat n + 0) with (Qc_of_nat n) by ring.
  - apply Qcplus_le_compat; [apply Qcle_refl|discriminate].
Qed.

Lemma Qc_of_nat_pos (n : nat) : (0 < n)%nat -> 0 < Qc_of_nat n.
Proof.
  destruct n as [|n]; [lia|intros _]. rewrite Qc_of_nat_S.
  apply Qclt_le_trans with (0 + 1); [reflexivity|].
  apply Qcplus_le_compat; [apply Qc_of_nat_nonneg|apply Qcle_refl].
Qed.

Lemma Qc_of_nat_le (k n : nat) : (k <= n)%nat -> Qc_of_nat k <= Qc_of_nat n.
Proof.
  induction 1 as [|n _ IH]; [apply Qcle_refl|].
  rewrite Qc_of_nat_S. apply Qcle_trans with (Qc_of_nat n + 0).
  - now replace (Qc_of_nat n + 0) with (Qc_of_nat n) by ring.
  - apply Qcplus_le_compat; [apply Qcle_refl|discriminate].
Qed.

Lemma Qc_pos_neq_0 (y : Qc) : 0 < y -> y <> 0.
Proof. intros H E. rewrite E in H. discriminate H. Qed.

Lemma Qcdiv_le_1 (x y : Qc) : x <= y -> 0 < y -> x / y <= 1.
Proof.
  intros Hxy Hy. apply Qcmult_lt_0_le_reg_r with y; [exact Hy|].
  replace (x / y * y) with x by (field; now apply Qc_pos_neq_0).
  now replace (1 * y) with y by ring.
Qed.


(** ** The mean lies between the least and the greatest sample *)




(** ** Ranges of the reported statistics *)

Lemma collect_In_inv {A : Type} (body : A -> option Qc) (l : list A) (e : Qc) :
  In e (collect body l) -> exists a, In a l /\ body a = Some e.
Proof.
  unfold collect. intros H. apply in_flat_map in H. destruct H as (a & Ha & He).
  exists a. split; [exact Ha|]. destruct (body a) as [e'|]; [|contradiction].
  destruct He as [<-|[]]. reflexivity.
Qed.






(** ** Records without a timestamp *)

Lemma scan_closest_filter_timed (gt_time : option Qc) (conv : list dict) :
  forall closest m,
    scan_closest gt_time (filter has_time conv) closest m
    = scan_closest gt_time conv closest m.
Proof.
  induction conv as [|c conv IH]; intros closest m; [reflexivity|].
  cbn [filter]. unfold has_time at 1.
  destruct (time_unix c) as [t|] eqn:E.
  - cbn [scan_closest]. rewrite E. destruct gt_time as [T|]; [|apply IH].
    destruct (lt_ext (Qcabs (T - t)) m); apply IH.
  - cbn [scan_closest]. rewrite E. apply IH.
Qed.

Lemma find_closest_filter_timed (gt_time : option Qc) (conv : list dict) :
  find_closest gt_time (filter has_time conv) = find_closest gt_time conv.
Proof. apply scan_closest_filter_timed. Qed.

Lemma find_closest_untimed (conv : list dict) : find_closest None conv = (None, Inf).
Proof. apply scan_closest_no_gt_time. Qed.

Lemma collect_filter {A : Type} (body : A -> option Qc) (keep : A -> bool) (l : list A) :
  (forall a, keep a = false -> body a = None) ->
  collect body (filter keep l) = collect body l.
Proof.
  intros H. induction l as [|a l IH]; [reflexivity|].
  cbn [filter]. destruct (keep a) eqn:E.
  - unfold collect in *. simpl. now rewrite IH.
  - rewrite (collect_cons_none body a l (H a E)). exact IH.
Qed.

Lemma has_time_false (g : dict) : has_time g = false -> time_unix g = None.
Proof. unfold has_time. now destruct (time_unix g). Qed.

(** X3.  Records without [time_unix] take no part in the alignment: the
    error samples of the four calculators are the same when the records
    without a timestamp are removed from both lists, and the complete
    results are the same when they are removed from the converted list. *)
Theorem X3_untimed_records_are_ignored (np : numpy) (gt conv : list dict) :
  (forall field,
      field_errors (filter has_time gt) (filter has_time conv) field
      = field_errors gt conv field) /\
  collect (position_error_sample np (filter has_time conv)) (filter has_time gt)
  = collect (position_error_sample np conv) gt /\
  collect (orientation_error_sample np (filter has_time conv)) (filter has_time gt)
  = collect (orientation_error_sample np conv) gt /\
  collect (acceleration_error_sample np (filter has_time conv)) (filter has_time gt)
  = collect (acceleration_error_sample np conv) gt /\
  (forall fields,
      _calculate_field_errors np gt (filter has_time conv) fields
      = _calculate_field_errors np gt conv fields) /\
  calculate_position_error np gt (filter has_time conv) = calculate_position_error np gt conv /\
  calculate_orientation_error np gt (filter has_time conv)
  = calculate_orientation_error np gt conv /\
  calculate_acceleration_error np gt (filter has_time conv)
  = calculate_acceleration_error np gt conv.
Proof.
  assert (Hf : forall field g,
             field_error_sample (filter has_time conv) field g
             = field_error_sample conv field g).
  { intros. unfold field_error_sample. now rewrite find_closest_filter_timed. }
  assert (Hp : forall g, position_error_sample np (filter has_time conv) g
                         = position_error_sample np conv g).
  { intros. unfold position_error_sample. now rewrite find_closest_filter_timed. }
  assert (Ho : forall g, orientation_error_sample np (filter has_time conv) g
                         = orientation_error_sample np conv g).
  { intros. unfold orientation_error_sample. now rewrite find_closest_filter_timed. }
  assert (Ha : forall g, acceleration_error_sample np (filter has_time conv) g
                         = acceleration_error_sample np conv g).
  { intros. unfold acceleration_error_sample. now rewrite find_closest_filter_timed. }
  assert (Hfm : forall field, field_metrics np gt (filter has_time conv) field
                              = field_metrics np gt conv field).
  { intros field. unfold field_metrics, field_errors.
    now rewrite (collect_ext_in _ _ gt (fun g _ => Hf field g)). }
  split.
  { intros field. unfold field_errors.
    rewrite (collect_ext_in _ _ _ (fun g _ => Hf field g)).
    apply collect_filter. intros g Hg. apply has_time_false in Hg.
    unfold field_error_sample. now rewrite Hg, find_closest_untimed. }
  split.
  { rewrite (collect_ext_in _ _ _ (fun g _ => Hp g)).
    apply collect_filter. intros g Hg. apply has_time_false in Hg.
    unfold position_error_sample. now rewrite Hg, find_closest_untimed. }
  split.
  { rewrite (collect_ext_in _ _ _ (fun g _ => Ho g)).
    apply collect_filter. intros g Hg. apply has_time_false in Hg.
    unfold orientation_error_sample. now rewrite Hg, find_closest_untimed. }
  split.
  { rewrite (collect_ext_in _ _ _ (fun g _ => Ha g)).
    apply collect_filter. intros g Hg. apply has_time_false in Hg.
    unfold acceleration_error_sample. now rewrite Hg, find_closest_untimed. }
  split.
  { intros fields. unfold _calculate_field_errors. now apply field_loop_ext. }
  split; [|split].
  - unfold calculate_position_error. now rewrite (collect_ext_in _ _ gt (fun g _ => Hp g)).
  - unfold calculate_orientation_error. now rewrite (collect_ext_in _ _ gt (fun g _ => Ho g)).
  - unfold calculate_acceleration_error. now rewrite (collect_ext_in _ _ gt (fun g _ => Ha g)).
Qed.

(** ** A dataset compared against itself *)

(** An exact timestamp is found, at distance zero. *)
Lemma find_closest_exact (T : Qc) (conv : list dict) (c0 : dict) :
  In c0 conv -> time_unix c0 = Some T ->
  exists c, find_closest (Some T) conv = (Some c, Fin 0) /\
            In c conv /\ time_unix c = Some T.
Proof.
  intros Hin Ht. unfold find_closest.
  destruct (scan_closest_spec T conv None Inf)
    as [[_ Hall]|(i & c & d & Hn & Hd & Heq & _ & Hmin)].
  - specialize (Hall c0 (Qcabs (T - T)) Hin).
    unfold time_diff_of in Hall. rewrite Ht in Hall. specialize (Hall eq_refl).
    discriminate Hall.
  - destruct (In_nth_error _ _ Hin) as [j Hj].
    assert (Hd0 : time_diff_of T c0 = Some 0).
    { unfold time_diff_of. rewrite Ht. simpl. now rewrite Qcabs_self_diff. }
    destruct (Hmin j c0 0 Hj Hd0) as [Hle _].
    unfold time_diff_of in Hd. destruct (time_unix c) as [t|] eqn:Et; [|discriminate].
    simpl in Hd. injection Hd as <-.
    assert (Hz : Qcabs (T - t) = 0) by (apply Qcle_antisym; [exact Hle|apply Qcabs_nonneg]).
    exists c. rewrite Heq, Hz. split; [reflexivity|].
    split; [eapply nth_error_In; eauto|].
    rewrite Et. f_equal. now apply Qcabs_diff_zero.
Qed.

Lemma collect_constant {A : Type} (body : A -> option Qc) (keep : A -> bool)
      (c : Qc) (l : list A) :
  (forall a, In a l -> body a = if keep a then Some c else None) ->
  collect body l = map (fun _ => c) (filter keep l).
Proof.
  intros H. unfold collect. induction l as [|a l IH]; [reflexivity|].
  cbn [flat_map filter]. rewrite (H a (or_introl eq_refl)).
  rewrite IH by (intros b Hb; apply H; now right).
  now destruct (keep a).
Qed.

Lemma Qcsum_zeros {A : Type} (l : list A) : Qcsum (map (fun _ => 0) l) = 0.
Proof. induction l as [|a l IH]; simpl; [reflexivity|]. fold (Qcsum (map (fun _ : A => 0) l)). rewrite IH. ring. Qed.

Lemma np_mean_zeros {A : Type} (l : list A) : np_mean (map (fun _ => 0) l) = 0.
Proof. unfold np_mean. rewrite Qcsum_zeros. unfold Qcdiv. ring. Qed.

Lemma In_zeros {A : Type} (l : list A) (x : Qc) : In x (map (fun _ => 0) l) -> x = 0.
Proof. intros H. apply in_map_iff in H. now destruct H as (a & <- & _). Qed.

(** With pairwise distinct timestamps every timed record is matched with
    itself. *)
Lemma field_errors_self (gt : list dict) (field : string) :
  distinctb (timestamps gt) = true ->
  field_errors gt gt field = map (fun _ => 0) (filter (timed_with_field field) gt).
Proof.
  intros Hd. apply distinctb_NoDup in Hd. unfold timestamps in Hd.
  unfold field_errors. apply collect_constant.
  intros g Hg. unfold field_error_sample, timed_with_field, has_time.
  destruct (time_unix g) as [T|] eqn:Et.
  - destruct (find_closest_exact T gt g Hg Et) as (c & Hc & Hin & Htc).
    rewrite Hc.
    assert (c = g) by exact (collect_NoDup_inj time_unix gt Hd c g T Hin Hg Htc Et).
    subst c. cbn [accepted ext_lt].
    change (Qcltb 0 tol_0_1) with true. cbv iota.
    destruct (_get_nested_field (JDict g) field) as [v|]; [|reflexivity].
    cbn [andb]. now rewrite Qcabs_self_diff.
  - now rewrite find_closest_untimed.
Qed.

(** X4.  A dataset whose timestamps are pairwise distinct, compared against
    itself: every record with a timestamp in which the field resolves is
    matched with itself, so each error is 0 and the result is either the
    no-data literal or [mae = max_error = min_error = 0] with as many
    matched points as there are such records. *)
Theorem X4_self_comparison_has_zero_error (np : numpy) (gt : list dict) (field : string) :
  distinctb (timestamps gt) = true ->
  field_errors gt gt field = map (fun _ => 0) (filter (timed_with_field field) gt) /\
  exists r,
    field_metrics np gt gt field = Ok r /\
    (r = no_data_field_metrics \/
     (lookup r "mae" = Some (PyFloat 0) /\
      lookup r "max_error" = Some (PyFloat 0) /\
      lookup r "min_error" = Some (PyFloat 0) /\
      lookup r "num_matched_points"
      = Some (PyInt (length (filter (timed_with_field field) gt))))).
Proof.
  intros Hd. pose proof (field_errors_self gt field Hd) as He.
  split; [exact He|].
  unfold field_metrics. rewrite He.
  set (kept := filter (timed_with_field field) gt).
  assert (Hlen : (length kept <= length gt)%nat) by apply filter_length_le.
  destruct kept as [|k kept'] eqn:Ek.
  - eexists. split; [reflexivity|]. now left.
  - destruct gt as [|g gt']; [simpl in Hlen; lia|].
    cbn [map truediv length bind].
    eexists. split; [reflexivity|]. right.
    change (0 :: map (fun _ : dict => 0) kept') with (map (fun _ : dict => 0) (k :: kept')).
    cbn [lookup String.eqb Ascii.eqb Bool.eqb].
    rewrite np_mean_zeros.
    assert (Hne : map (fun _ : dict => 0) (k :: kept') <> []) by discriminate.
    destruct (np_max_spec _ Hne) as [Hmax _]. apply In_zeros in Hmax.
    destruct (np_min_spec _ Hne) as [Hmin _]. apply In_zeros in Hmin.
    rewrite Hmax, Hmin, length_map. repeat split.
Qed.

Lemma X4_self_comparison_witness :
  distinctb (timestamps ex_gt_ramp) = true /\
  field_errors ex_gt_ramp ex_gt_ramp "x"
  = map (fun _ => 0) (filter (timed_with_field "x") ex_gt_ramp).
Proof.
  split; [reflexivity|].
  apply (X4_self_comparison_has_zero_error np_stub ex_gt_ramp "x"). reflexivity.
Defined.

(** ** Acceptance under a larger tolerance *)

Lemma accepted_monotone (tol tol' : Qc) (m : option dict * ext) (c : dict) :
  tol <= tol' -> accepted tol m = Some c -> accepted tol' m = Some c.
Proof.
  intros Hle. destruct m as [[c'|] [d|]]; simpl; try discriminate.
  destruct (Qcltb d tol) eqn:E; [|discriminate]. intros H.
  apply Qcltb_true_iff in E.
  assert (E' : Qcltb d tol' = true)
    by (apply Qcltb_true_iff; eapply Qclt_le_trans; eauto).
  now rewrite E'.
Qed.

(** ** Sampling rates *)













(** ** The nearest timestamp *)

Lemma min_by_key_fold_spec (key : Qc -> Qc) (r : list Qc) :
  forall x, let m := fold_left (fun best t => if Qcltb (key t) (key best) then t else best) r x in
            In m (x :: r) /\ forall t, In t (x :: r) -> key m <= key t.
Proof.
  induction r as [|a r IH]; intros x; cbn [fold_left].
  - split; [now left|]. intros t [<-|[]]. apply Qcle_refl.
  - destruct (Qcltb (key a) (key x)) eqn:E.
    + destruct (IH a) as [Hin Hle]. cbv zeta in Hin, Hle. split.
      * right. exact Hin.
      * intros t [<-|Ht]; [|now apply Hle].
        apply Qcltb_true_iff in E. apply Qcle_trans with (key a).
        -- apply Hle. now left.
        -- now apply Qclt_le_weak.
    + destruct (IH x) as [Hin Hle]. cbv zeta in Hin, Hle. split.
      * destruct Hin as [Hin|Hin]; [now left|right; now right].
      * intros t [<-|[<-|Ht]].
        -- apply Hle. now left.
        -- apply Qcltb_false_iff in E. apply Qcle_trans with (key x); [|exact E].
           apply Hle. now left.
        -- apply Hle. now right.
Qed.

(** [min(l, key=key)] is an element of [l] with the least key. *)
Lemma min_by_key_spec (key : Qc -> Qc) (l : list Qc) :
  l <> [] ->
  In (min_by_key key l) l /\ forall t, In t l -> key (min_by_key key l) <= key t.
Proof.
  destruct l as [|x r]; [now intros H|intros _]. apply min_by_key_fold_spec.
Qed.

Lemma Qc_million_pos : 0 < Q2Qc 1000000.
Proof. reflexivity. Qed.

(** X7.  With a non-empty list of converted timestamps, the timestamp error
    computed for a ground-truth timestamp is 10^6 times its distance to the
    nearest converted timestamp: it is non-negative, at most the scaled
    distance to any converted timestamp, and zero exactly when the
    ground-truth timestamp occurs among the converted ones. *)
Theorem X7_timestamp_error_is_nearest_distance
        (gt_timestamps conv_timestamps : list Qc) (gt_time error : Qc) :
  conv_timestamps <> [] ->
  In (gt_time, error) (combine gt_timestamps (timestamp_errors gt_timestamps conv_timestamps)) ->
  0 <= error /\
  (exists t, In t conv_timestamps /\ error = Qcabs (gt_time - t) * Q2Qc 1000000) /\
  (forall t, In t conv_timestamps -> error <= Qcabs (gt_time - t) * Q2Qc 1000000) /\
  (error = 0 <-> In gt_time conv_timestamps).
Proof.
  intros Hne Hin.
  assert (He : error = Qcabs (gt_time - min_by_key (fun t => Qcabs (t - gt_time)) conv_timestamps)
                       * Q2Qc 1000000).
  { unfold timestamp_errors in Hin. clear Hne.
    induction gt_timestamps as [|g gts IH]; [contradiction|].
    cbn [map combine] in Hin. destruct Hin as [E|Hin]; [|now apply IH].
    now injection E as <- <-. }
  destruct (min_by_key_spec (fun t => Qcabs (t - gt_time)) conv_timestamps Hne) as [Hm Hmin].
  set (m := min_by_key (fun t => Qcabs (t - gt_time)) conv_timestamps) in *.
  assert (Hpos : 0 <= Q2Qc 1000000) by discriminate.
  split.
  { rewrite He. replace 0 with (0 * Q2Qc 1000000) by ring.
    apply Qcmult_le_compat_r; [apply Qcabs_nonneg|exact Hpos]. }
  split; [now exists m|].
  split.
  { intros t Ht. rewrite He. apply Qcmult_le_compat_r; [|exact Hpos].
    rewrite (Qcabs_Qcminus gt_time m), (Qcabs_Qcminus gt_time t). now apply Hmin. }
  split.
  - intros Hz. rewrite He in Hz. apply Qcmult_integral in Hz.
    destruct Hz as [Hz|Hz]; [|discriminate Hz].
    apply Qcabs_diff_zero in Hz. now rewrite <- Hz.
  - intros Hg. rewrite He.
    specialize (Hmin gt_time Hg). cbv beta in Hmin. rewrite Qcabs_self_diff in Hmin.
    rewrite (Qcabs_Qcminus gt_time m).
    replace (Qcabs (m - gt_time)) with 0
      by (apply Qcle_antisym; [apply Qcabs_nonneg|exact Hmin]).
    ring.
Qed.

Lemma X7_timestamp_error_witness :
  timestamps ex_conv_at_5 <> [] /\
  In (qnum 0 1, qnum 5000000 1)
     (combine (timestamps ex_gt_at_0)
              (timestamp_errors (timestamps ex_gt_at_0) (timestamps ex_conv_at_5))) /\
  0 <= qnum 5000000 1.
Proof.
  assert (H1 : timestamps ex_conv_at_5 <> []) by discriminate.
  assert (H2 : In (qnum 0 1, qnum 5000000 1)
                  (combine (timestamps ex_gt_at_0)
                           (timestamp_errors (timestamps ex_gt_at_0) (timestamps ex_conv_at_5)))).
  { left. apply f_equal2; [reflexivity|apply Qc_is_canon; reflexivity]. }
  split; [exact H1|]. split; [exact H2|].
  exact (proj1 (X7_timestamp_error_is_nearest_distance _ _ _ _ H1 H2)).
Defined.

Lemma timestamp_errors_zero (gts cts : list Qc) :
  (forall t, In t gts -> In t cts) ->
  timestamp_errors gts cts = map (fun _ => 0) gts.
Proof.
  intros H. unfold timestamp_errors. apply map_ext_in. intros g Hg.
  assert (Hne : cts <> []) by (intros ->; exact (H g Hg)).
  destruct (min_by_key_spec (fun t => Qcabs (t - g)) cts Hne) as [_ Hmin].
  specialize (Hmin g (H g Hg)). cbv beta in Hmin. rewrite Qcabs_self_diff in Hmin.
  rewrite (Qcabs_Qcminus g _).
  replace (Qcabs (min_by_key (fun t => Qcabs (t - g)) cts - g)) with 0
    by (apply Qcle_antisym; [apply Qcabs_nonneg|exact Hmin]).
  ring.
Qed.

Lemma np_max_zeros {A : Type} (l : list A) : np_max (map (fun _ => 0) l) = 0.
Proof.
  destruct l as [|a l]; [reflexivity|].
  assert (Hne : map (fun _ : A => 0) (a :: l) <> []) by discriminate.
  destruct (np_max_spec _ Hne) as [H _]. now apply In_zeros in H.
Qed.

Lemma np_min_zeros {A : Type} (l : list A) : np_min (map (fun _ => 0) l) = 0.
Proof.
  destruct l as [|a l]; [reflexivity|].
  assert (Hne : map (fun _ : A => 0) (a :: l) <> []) by discriminate.
  destruct (np_min_spec _ Hne) as [H _]. now apply In_zeros in H.
Qed.

Lemma np_std_zeros {A : Type} (np : numpy) (l : list A) :
  np_std np (map (fun _ => 0) l) = np_sqrt np 0.
Proof.
  unfold np_std. rewrite np_mean_zeros, map_map. f_equal.
  replace (map (fun _ : A => square (Qcabs (0 - 0))) l) with (map (fun _ : A => 0) l).
  - apply np_mean_zeros.
  - apply map_ext. intros _. unfold square. replace (0 - 0) with 0 by ring.
    replace (Qcabs 0) with 0 by (symmetry; apply Qcabs_pos; apply Qcle_refl). ring.
Qed.

(** X8.  When every ground-truth timestamp occurs among the converted
    timestamps (for instance when a dataset is compared against itself,
    whatever the order and the repetitions), the timestamp error has mean,
    maximum and minimum 0; and when in both datasets every GNSS timestamp
    occurs among the IMU timestamps, the GNSS/IMU alignment entry is 0 in
    its three fields. *)
Theorem X8_covered_timestamps_have_zero_error
        (np : numpy) (gt conv gt_imu conv_imu : list dict) :
  timestamps gt <> [] ->
  (forall t, In t (timestamps gt) -> In t (timestamps conv)) ->
  timestamp_conversion_error np gt conv
  = Some [ ("mean_error_us", PyFloat 0); ("max_error_us", PyFloat 0);
           ("min_error_us", PyFloat 0); ("std_error_us", PyFloat (np_sqrt np 0)) ] /\
  timestamp_conversion_error np gt gt
  = Some [ ("mean_error_us", PyFloat 0); ("max_error_us", PyFloat 0);
           ("min_error_us", PyFloat 0); ("std_error_us", PyFloat (np_sqrt np 0)) ] /\
  ((forall t, In t (timestamps gt) -> In t (timestamps gt_imu)) ->
   (forall t, In t (timestamps conv) -> In t (timestamps conv_imu)) ->
   temporal_alignment_error gt gt_imu conv conv_imu
   = Some [ ("ground_truth_mean_error_us", PyFloat 0);
            ("converted_mean_error_us", PyFloat 0);
            ("alignment_error_difference_us", PyFloat 0) ]).
Proof.
  intros Hne Hsub.
  assert (Hgeneral : forall a b,
             timestamps a <> [] ->
             (forall t, In t (timestamps a) -> In t (timestamps b)) ->
             timestamp_conversion_error np a b
             = Some [ ("mean_error_us", PyFloat 0); ("max_error_us", PyFloat 0);
                      ("min_error_us", PyFloat 0);
                      ("std_error_us", PyFloat (np_sqrt np 0)) ]).
  { intros a b Ha Hab. unfold timestamp_conversion_error.
    rewrite (timestamp_errors_zero _ _ Hab).
    rewrite np_mean_zeros, np_max_zeros, np_min_zeros, np_std_zeros.
    destruct (timestamps a) as [|t ts] eqn:Ea; [now elim Ha|].
    destruct (timestamps b) as [|u us] eqn:Eb; [|reflexivity].
    exfalso. exact (Hab t (or_introl eq_refl)). }
  split; [now apply Hgeneral|]. split; [apply Hgeneral; auto|].
  intros Hgi Hci. unfold temporal_alignment_error.
  rewrite (timestamp_errors_zero _ _ Hgi), (timestamp_errors_zero _ _ Hci).
  rewrite !np_mean_zeros.
  replace (Qcabs (0 - 0)) with 0
    by (replace (0 - 0) with 0 by ring; symmetry; apply Qcabs_pos; apply Qcle_refl).
  destruct (timestamps gt) as [|t ts] eqn:Ea; [now elim Hne|].
  destruct (timestamps gt_imu) as [|u us] eqn:Eb;
    [exfalso; exact (Hgi t (or_introl eq_refl))|].
  destruct (timestamps conv) as [|v vs] eqn:Ec;
    [exfalso; exact (Hsub t (or_introl eq_refl))|].
  destruct (timestamps conv_imu) as [|w ws] eqn:Ed;
    [exfalso; exact (Hci v (or_introl eq_refl))|].
  reflexivity.
Qed.

Lemma X8_covered_timestamps_witness :
  timestamps ex_gt_pair <> [] /\
  (forall t, In t (timestamps ex_gt_pair) -> In t (timestamps (ex_gt_pair ++ ex_gt_ramp))) /\
  timestamp_conversion_error np_stub ex_gt_pair (ex_gt_pair ++ ex_gt_ramp)
  = Some [ ("mean_error_us", PyFloat 0); ("max_error_us", PyFloat 0);
           ("min_error_us", PyFloat 0); ("std_error_us", PyFloat (np_sqrt np_stub 0)) ].
Proof.
  assert (H1 : timestamps ex_gt_pair <> []) by discriminate.
  assert (H2 : forall t, In t (timestamps ex_gt_pair)
                         -> In t (timestamps (ex_gt_pair ++ ex_gt_ramp))).
  { intros t Ht. unfold timestamps in *. rewrite collect_app. apply in_or_app. now left. }
  split; [exact H1|]. split; [exact H2|].
  exact (proj1 (X8_covered_timestamps_have_zero_error np_stub ex_gt_pair
                  (ex_gt_pair ++ ex_gt_ramp) [] [] H1 H2)).
Defined.

(** ** Schema compliance *)

Lemma count_compliant_inner (entry : dict) (required : list string) :
  forall c t,
    fold_left (fun '(compliant_fields, total_fields) field =>
                 (if resolves entry field then S compliant_fields else compliant_fields,
                  S total_fields))
              required (c, t)
    = (c + length (filter (resolves entry) required), t + length required)%nat.
Proof.
  induction required as [|f required IH]; intros c t; cbn [fold_left filter length].
  - now rewrite !Nat.add_0_r.
  - rewrite IH. destruct (resolves entry f); cbn [length]; f_equal; lia.
Qed.

Lemma count_compliant_spec (converted : list dict) (required : list string) :
  count_compliant converted required
  = (compliant_pairs converted required, (length converted * length required)%nat).
Proof.
  unfold count_compliant, compliant_pairs.
  assert (H : forall c t,
             fold_left (fun counters entry =>
                          fold_left (fun '(compliant_fields, total_fields) field =>
                                       (if resolves entry field
                                        then S compliant_fields else compliant_fields,
                                        S total_fields))
                                    required counters)
                       converted (c, t)
             = (c + list_sum (map (fun entry => length (filter (resolves entry) required))
                                  converted),
                t + length converted * length required)%nat).
  { induction converted as [|e converted IH]; intros c t.
    - simpl. f_equal; lia.
    - cbn [fold_left]. rewrite count_compliant_inner, IH. simpl. f_equal; lia. }
  apply (H 0%nat 0%nat).
Qed.

Lemma compliant_pairs_le (converted : list dict) (required : list string) :
  (compliant_pairs converted required <= length converted * length required)%nat.
Proof.
  unfold compliant_pairs. induction converted as [|e converted IH]; simpl; [lia|].
  pose proof (filter_length_le (resolves e) required). lia.
Qed.

Lemma filter_length_all {A : Type} (f : A -> bool) (l : list A) :
  length (filter f l) = length l <-> forall a, In a l -> f a = true.
Proof.
  induction l as [|a l IH]; simpl.
  - split; [intros _ x []|reflexivity].
  - pose proof (filter_length_le f l) as Hle. destruct (f a) eqn:E; simpl.
    + split.
      * intros H x [<-|Hx]; [exact E|]. apply IH; [lia|exact Hx].
      * intros H. f_equal. apply IH. intros x Hx. apply H. now right.
    + split; [lia|]. intros H. specialize (H a (or_introl eq_refl)). congruence.
Qed.

Lemma compliant_pairs_all (converted : list dict) (required : list string) :
  compliant_pairs converted required = (length converted * length required)%nat <->
  forall entry field, In entry converted -> In field required -> resolves entry field = true.
Proof.
  unfold compliant_pairs. induction converted as [|e converted IH]; simpl.
  - split; [intros _ x f []|reflexivity].
  - pose proof (filter_length_le (resolves e) required) as H1.
    pose proof (compliant_pairs_le converted required) as H2. unfold compliant_pairs in H2.
    split.
    + intros H entry field [<-|He] Hf.
      * apply (proj1 (filter_length_all (resolves e) required)); [lia|exact Hf].
      * apply IH; [lia|exact He|exact Hf].
    + intros H.
      rewrite (proj2 (filter_length_all (resolves e) required))
        by (intros f Hf; apply H; [now left|exact Hf]).
      rewrite (proj2 IH); [reflexivity|].
      intros entry field He Hf. apply H; [now right|exact Hf].
Qed.

Lemma percentage_range (part total : nat) :
  (part <= total)%nat ->
  (total = 0%nat /\ percentage part total = PyInt 0) \/
  (exists p, percentage part total = PyFloat p /\ 0 <= p /\ p <= hundred /\
             (p = hundred <-> part = total) /\ (p = 0 <-> part = 0%nat)).
Proof.
  intros Hle. unfold percentage. destruct total as [|total]; [left; now split|right].
  cbn [Nat.ltb Nat.leb]. eexists. split; [reflexivity|].
  set (t := Qc_of_nat (S total)). set (k := Qc_of_nat part).
  assert (Ht : 0 < t) by (apply Qc_of_nat_pos; lia).
  pose proof (Qc_pos_neq_0 _ Ht) as Ht0.
  assert (Hk : 0 <= k) by apply Qc_of_nat_nonneg.
  assert (Hkt : k <= t) by (now apply Qc_of_nat_le).
  assert (H100 : 0 < hundred) by reflexivity.
  assert (Hq1 : k / t <= 1) by (now apply Qcdiv_le_1).
  assert (Hq0 : 0 <= k / t).
  { apply Qcmult_lt_0_le_reg_r with t; [exact Ht|].
    replace (k / t * t) with k by (now field). now replace (0 * t) with 0 by ring. }
  split; [|split; [|split]].
  - replace 0 with (0 * hundred) by ring.
    apply Qcmult_le_compat_r; [exact Hq0|now apply Qclt_le_weak].
  - replace hundred with (1 * hundred) at 2 by ring.
    apply Qcmult_le_compat_r; [exact Hq1|now apply Qclt_le_weak].
  - split.
    + intros E.
      assert (Ek : k = t).
      { replace k with (k / t * hundred * t * / hundred)
          by (field; split; [discriminate|exact Ht0]).
        rewrite E. field. discriminate. }
      unfold k, t in Ek. apply (f_equal this) in Ek. unfold Qc_of_nat, Q2Qc in Ek.
      cbn [this] in Ek.
      assert (Eq : inject_Z (Z.of_nat part) == inject_Z (Z.of_nat (S total))).
      { rewrite <- (Qred_correct (inject_Z (Z.of_nat part))),
                <- (Qred_correct (inject_Z (Z.of_nat (S total)))). now rewrite Ek. }
      unfold Qeq in Eq. simpl in Eq. lia.
    + intros ->. fold t. unfold k. fold t. replace (t / t) with 1 by (now field). ring.
  - split.
    + intros E. apply Qcmult_integral in E. destruct E as [E|E]; [|discriminate E].
      unfold Qcdiv in E. apply Qcmult_integral in E. destruct E as [E|E].
      * unfold k in E. destruct part as [|part]; [reflexivity|].
        exfalso. apply (Qc_pos_neq_0 (Qc_of_nat (S part))); [apply Qc_of_nat_pos; lia|exact E].
      * exfalso. apply (f_equal (fun x => x * t)) in E.
        rewrite Qcmult_inv_l in E by exact Ht0. rewrite Qcmult_0_l in E. discriminate E.
    + intros ->. unfold k. rewrite Qc_of_nat_0. unfold Qcdiv. ring.
Qed.

(** X9.  The schema compliance entry of a file is absent when the schema
    lacks the category or lists no required field.  Otherwise
    [total_fields] is the number of converted records times the number of
    required fields, [compliant_fields] is the number of (record, field)
    pairs in which the field resolves, never more than [total_fields], and
    the score is the integer 0 for an empty converted list (no division is
    made) and else a percentage in [0, 100], equal to 100 exactly when every
    required field resolves in every record. *)
Theorem X9_schema_compliance_counts
        (schema : schema_doc) (schema_type : string) (converted : list dict) :
  let required := _get_required_fields schema schema_type in
  (schema_compliance_score schema schema_type converted = None /\
   (has_key schema schema_type = false \/ required = [])) \/
  (exists score,
      schema_compliance_score schema schema_type converted
      = Some [ ("compliance_score", score);
               ("compliant_fields", PyInt (compliant_pairs converted required));
               ("total_fields", PyInt (length converted * length required)) ] /\
      required <> [] /\
      (compliant_pairs converted required <= length converted * length required)%nat /\
      percentage_of (compliant_pairs converted required)
                    (length converted * length required) score /\
      (converted = [] -> score = PyInt 0) /\
      (compliant_pairs converted required = (length converted * length required)%nat <->
       forall entry field, In entry converted -> In field required ->
                           resolves entry field = true)).
Proof.
  intros required. unfold schema_compliance_score. fold required.
  destruct schema as [|s schema'] eqn:Es.
  { left. split; [reflexivity|now left]. }
  rewrite <- Es.
  destruct (has_key schema schema_type) eqn:Hk; [|left; split; [reflexivity|now left]].
  destruct required as [|f fs] eqn:Er; [left; split; [reflexivity|now right]|].
  right. rewrite count_compliant_spec.
  pose proof (compliant_pairs_le converted (f :: fs)) as Hle.
  exists (percentage (compliant_pairs converted (f :: fs))
                     (length converted * length (f :: fs))).
  split; [reflexivity|]. split; [discriminate|]. split; [exact Hle|].
  split; [exact (percentage_range _ _ Hle)|].
  split; [now intros ->|apply compliant_pairs_all].
Qed.

(** ** Field mapping *)

Lemma add_key_NoDup (ks : list string) (k : string) : NoDup ks -> NoDup (add_key ks k).
Proof.
  intros H. unfold add_key. destruct (existsb (String.eqb k) ks) eqn:E; [exact H|].
  apply existsb_eqb_false in E.
  apply NoDup_app; [exact H|repeat constructor; intros []|].
  intros x Hx [<-|[]]. contradiction.
Qed.

Lemma add_key_incl (ks : list string) (k x : string) : In x ks -> In x (add_key ks k).
Proof.
  intros H. unfold add_key. destruct (existsb (String.eqb k) ks); [exact H|].
  apply in_or_app. now left.
Qed.

Lemma add_key_In (ks : list string) (k : string) : In k (add_key ks k).
Proof.
  unfold add_key. destruct (existsb (String.eqb k) ks) eqn:E.
  - now apply existsb_eqb_true.
  - apply in_or_app. right. now left.
Qed.

(** [_collect_fields] only adds names, and keeps the set duplicate-free. *)
Lemma collect_fields_invariant (data : json) :
  forall prefix fields,
    (NoDup fields -> NoDup (_collect_fields data prefix fields)) /\
    (forall x, In x fields -> In x (_collect_fields data prefix fields)).
Proof.
  induction data as [| | | |l _|d IH] using json_induction; intros prefix fields;
    try (split; [intros H; exact H|intros x H; exact H]).
  cbn [_collect_fields]. revert fields.
  induction IH as [|[key value] rest Hv _ IHrest]; intros fields.
  - split; [intros H; exact H|intros x H; exact H].
  - cbn [snd] in Hv.
    set (fields' := match value with
                    | JDict _ | JList _ =>
                        _collect_fields value (field_name_of prefix key) fields
                    | _ => add_key fields (field_name_of prefix key)
                    end).
    assert (H' : (NoDup fields -> NoDup fields') /\ (forall x, In x fields -> In x fields')).
    { unfold fields'. destruct value;
        try (split; [apply add_key_NoDup|intros x; apply add_key_incl]);
        apply Hv. }
    destruct H' as [Hnd Hin]. destruct (IHrest fields') as [Hnd' Hin'].
    split.
    + intros H. apply Hnd'. now apply Hnd.
    + intros x H. apply Hin'. now apply Hin.
Qed.

Lemma collect_all_fields_NoDup (gt : list dict) : NoDup (collect_all_fields gt).
Proof.
  unfold collect_all_fields.
  assert (H : forall fields, NoDup fields ->
                             NoDup (fold_left (fun fields entry =>
                                                 _collect_fields (JDict entry) "" fields)
                                              gt fields)).
  { induction gt as [|e gt IH]; intros fields Hf; cbn [fold_left]; [exact Hf|].
    apply IH. now apply collect_fields_invariant. }
  apply H. constructor.
Qed.

Lemma count_mapped_spec (fields : list string) (converted : list dict) :
  count_mapped fields converted
  = (length (filter (field_exists converted) fields), length fields).
Proof.
  unfold count_mapped.
  assert (H : forall m t,
             fold_left (fun '(mapped_fields, total_fields) field =>
                          (if field_exists converted field
                           then S mapped_fields else mapped_fields,
                           S total_fields))
                       fields (m, t)
             = (m + length (filter (field_exists converted) fields), t + length fields)%nat).
  { induction fields as [|f fields IH]; intros m t; cbn [fold_left filter length].
    - f_equal; lia.
    - rewrite IH. destruct (field_exists converted f); cbn [length]; f_equal; lia. }
  apply (H 0%nat 0%nat).
Qed.

(** X10.  The field mapping entry counts, over the distinct field names
    collected from the ground truth, those that resolve to a number in at
    least one converted record: [mapped_fields] never exceeds
    [total_fields], it is 0 for an empty converted list, and the accuracy
    is the integer 0 when no field was collected and else a percentage in
    [0, 100], equal to 100 exactly when every collected field is mapped. *)
Theorem X10_field_mapping_counts (ground_truth converted : list dict) :
  let gt_fields := collect_all_fields ground_truth in
  let mapped := length (filter (field_exists converted) gt_fields) in
  NoDup gt_fields /\
  (mapped <= length gt_fields)%nat /\
  (converted = [] -> mapped = 0%nat) /\
  (mapped = length gt_fields <->
   forall field, In field gt_fields -> field_exists converted field = true) /\
  exists score,
    field_mapping_accuracy ground_truth converted
    = [ ("mapping_accuracy", score);
        ("mapped_fields", PyInt mapped);
        ("total_fields", PyInt (length gt_fields)) ] /\
    percentage_of mapped (length gt_fields) score.
Proof.
  intros gt_fields mapped.
  split; [apply collect_all_fields_NoDup|].
  assert (Hle : (mapped <= length gt_fields)%nat) by apply filter_length_le.
  split; [exact Hle|].
  split.
  { intros ->. unfold mapped. clear. induction gt_fields as [|f l IH]; [reflexivity|exact IH]. }
  split; [apply filter_length_all|].
  unfold field_mapping_accuracy. fold gt_fields. rewrite count_mapped_spec. fold mapped.
  eexists. split; [reflexivity|]. exact (percentage_range _ _ Hle).
Qed.

(** ** Paths without dots *)

Lemma split_dot_no_dot (s : string) : no_dot s = true -> split_dot s = s :: nil.
Proof.
  induction s as [|c r IH]; [reflexivity|].
  cbn [no_dot split_dot]. intros H. apply andb_prop in H. destruct H as [Hc Hr].
  apply negb_true_iff in Hc. rewrite Hc, (IH Hr). reflexivity.
Qed.

Lemma dict_get_In (d : dict) (k : string) (v : json) :
  dict_get d k = Some v -> In (k, v) d.
Proof.
  induction d as [|[k' v'] d IH]; simpl; [discriminate|].
  destruct (String.eqb_spec k k') as [->|N].
  - intros H. injection H as ->. now left.
  - intros H. right. now apply IH.
Qed.

(** A key whose value is a string is resolved to [None]. *)
Lemma resolves_string_leaf (entry : dict) (k s : string) :
  no_dot k = true -> dict_get entry k = Some (JStr s) -> resolves entry k = false.
Proof.
  intros Hk Hg. unfold resolves, _get_nested_field.
  rewrite (split_dot_no_dot k Hk). cbn [walk_fields]. now rewrite Hg.
Qed.

(** A top-level key with a scalar value is collected under its own name. *)
Lemma collect_fields_top_level (entry : dict) (k s : string) :
  In (k, JStr s) entry ->
  forall fields, In k (_collect_fields (JDict entry) "" fields).
Proof.
  induction entry as [|[k' v'] rest IH]; intros Hin fields; [contradiction|].
  change (_collect_fields (JDict ((k', v') :: rest)) "" fields)
    with (_collect_fields (JDict rest) ""
            (match v' with
             | JDict _ | JList _ => _collect_fields v' (field_name_of "" k') fields
             | _ => add_key fields (field_name_of "" k')
             end)).
  destruct Hin as [E|Hin].
  - injection E as -> ->. apply collect_fields_invariant. apply add_key_In.
  - now apply IH.
Qed.

Lemma collect_all_fields_In (gt : list dict) (entry : dict) (k s : string) :
  In entry gt -> In (k, JStr s) entry -> In k (collect_all_fields gt).
Proof.
  intros He Hk. unfold collect_all_fields.
  assert (H : forall fields,
             In k (fold_left (fun fields entry => _collect_fields (JDict entry) "" fields)
                             gt fields)).
  { induction gt as [|e gt IH]; intros fields; [contradiction|].
    cbn [fold_left]. destruct He as [->|He].
    - assert (Hmono : forall l fields,
                 In k fields ->
                 In k (fold_left (fun fields entry =>
                                    _collect_fields (JDict entry) "" fields) l fields)).
      { clear. induction l as [|e l IH]; intros fields Hf; [exact Hf|].
        cbn [fold_left]. apply IH. now apply collect_fields_invariant. }
      apply Hmono. now apply (collect_fields_top_level entry k s).
    - now apply IH. }
  apply H.
Qed.

Lemma filter_length_lt {A : Type} (f : A -> bool) (l : list A) (a : A) :
  In a l -> f a = false -> (length (filter f l) < length l)%nat.
Proof.
  intros Hin Hf.
  pose proof (filter_length_le f l) as Hle.
  destruct (Nat.eq_dec (length (filter f l)) (length l)) as [E|N]; [|lia].
  pose proof (proj1 (filter_length_all f l) E a Hin) as H. congruence.
Qed.

(** X11.  A field whose value is a string is collected from the ground
    truth but never resolves: if no converted record holds a number under
    that name, fewer fields are mapped than collected and the mapping
    accuracy is below 100, also when the ground truth is compared against
    itself. *)
Theorem X11_string_fields_are_never_mapped
        (ground_truth converted : list dict) (entry : dict) (k s : string) :
  no_dot k = true ->
  In entry ground_truth ->
  dict_get entry k = Some (JStr s) ->
  (forall c, In c converted -> resolves c k = false) ->
  resolves entry k = false /\
  In k (collect_all_fields ground_truth) /\
  (length (filter (field_exists converted) (collect_all_fields ground_truth))
   < length (collect_all_fields ground_truth))%nat /\
  exists p,
    lookup (field_mapping_accuracy ground_truth converted) "mapping_accuracy"
    = Some (PyFloat p) /\ p < hundred.
Proof.
  intros Hk He Hg Hconv.
  assert (Hr : resolves entry k = false) by (eapply resolves_string_leaf; eauto).
  assert (Hin : In k (collect_all_fields ground_truth)).
  { apply (collect_all_fields_In ground_truth entry k s He). now apply dict_get_In. }
  assert (Hex : field_exists converted k = false).
  { unfold field_exists. destruct (existsb (fun e => resolves e k) converted) eqn:E;
      [|reflexivity].
    apply existsb_exists in E. destruct E as (c & Hc & Hrc).
    rewrite (Hconv c Hc) in Hrc. discriminate Hrc. }
  pose proof (filter_length_lt (field_exists converted) _ k Hin Hex) as Hlt.
  split; [exact Hr|]. split; [exact Hin|]. split; [exact Hlt|].
  unfold field_mapping_accuracy. rewrite count_mapped_spec.
  destruct (percentage_range (length (filter (field_exists converted)
                                             (collect_all_fields ground_truth)))
                             (length (collect_all_fields ground_truth)))
    as [[Ht _]|(p & Hp & _ & Hle & H100 & _)]; [lia|lia|].
  exists p. cbn [lookup String.eqb Ascii.eqb Bool.eqb]. split; [now rewrite Hp|].
  destruct (Qcle_lt_or_eq _ _ Hle) as [H|H]; [exact H|].
  apply H100 in H. lia.
Qed.

Lemma X11_string_fields_witness :
  no_dot "frame" = true /\
  In ex_record_with_string (ex_record_with_string :: nil) /\
  dict_get ex_record_with_string "frame" = Some (JStr "ECEF") /\
  (forall c, In c (ex_record_with_string :: nil) -> resolves c "frame" = false) /\
  (length (filter (field_exists (ex_record_with_string :: nil))
                  (collect_all_fields (ex_record_with_string :: nil)))
   < length (collect_all_fields (ex_record_with_string :: nil)))%nat.
Proof.
  assert (H1 : no_dot "frame" = true) by reflexivity.
  assert (H2 : In ex_record_with_string (ex_record_with_string :: nil)) by (now left).
  assert (H3 : dict_get ex_record_with_string "frame" = Some (JStr "ECEF")) by reflexivity.
  assert (H4 : forall c, In c (ex_record_with_string :: nil) -> resolves c "frame" = false).
  { intros c [<-|[]]. reflexivity. }
  split; [exact H1|]. split; [exact H2|]. split; [exact H3|]. split; [exact H4|].
  exact (proj1 (proj2 (proj2 (X11_string_fields_are_never_mapped
                                (ex_record_with_string :: nil) (ex_record_with_string :: nil)
                                ex_record_with_string "frame" "ECEF" H1 H2 H3 H4)))).
Defined.

(** ** Signal fidelity without the spectral comparison *)

Lemma square_nonneg (x : Qc) : 0 <= square x.
Proof.
  unfold square. destruct (Qclt_le_dec x 0) as [H|H].
  - replace (x * x) with ((- x) * (- x)) by ring.
    assert (H' : 0 <= - x).
    { replace 0 with (- 0) by ring. apply Qcopp_le_compat. now apply Qclt_le_weak. }
    replace 0 with (0 * - x) by ring. now apply Qcmult_le_compat_r.
  - replace 0 with (0 * x) by ring. now apply Qcmult_le_compat_r.
Qed.









Section FidelityRanges.

Variable welch : list Qc -> nat -> list Qc.
Variable corrcoef : list Qc -> list Qc -> Qc.
Variable np_log10 : Qc -> Qc.




End FidelityRanges.



(** ** Discovered fields and resolved paths *)

Lemma string_app_assoc (a b c : string) : ((a ++ b) ++ c = a ++ (b ++ c))%string.
Proof. induction a as [|x a IH]; simpl; [reflexivity|now rewrite IH]. Qed.

Lemma string_app_inj_l (p a b : string) : (p ++ a = p ++ b)%string -> a = b.
Proof. induction p as [|x p IH]; simpl; intros H; [exact H|]. injection H as H. now apply IH. Qed.

Lemma split_dot_nonempty (s : string) : split_dot s <> [].
Proof.
  induction s as [|c r IH]; simpl; [discriminate|].
  destruct (Ascii.eqb c "."); [discriminate|]. destruct (split_dot r); discriminate.
Qed.

(** Splitting after a first component without a dot. *)
Lemma split_dot_app (k s : string) :
  no_dot k = true -> split_dot (k ++ "." ++ s) = k :: split_dot s.
Proof.
  induction k as [|c r IH]; cbn [no_dot]; intros H; [reflexivity|].
  apply andb_prop in H. destruct H as [Hc Hr]. apply negb_true_iff in Hc.
  change (String c r ++ "." ++ s)%string with (String c (r ++ "." ++ s)).
  cbn [split_dot]. now rewrite Hc, (IH Hr).
Qed.

(** A string has no dot, or a first component followed by a dot. *)
Lemma string_first_dot (s : string) :
  no_dot s = true \/ exists k s', s = (k ++ "." ++ s')%string /\ no_dot k = true.
Proof.
  induction s as [|c r IH]; [now left|].
  destruct (Ascii.eqb c ".") eqn:E.
  - right. apply Ascii.eqb_eq in E. subst c. exists EmptyString, r. split; reflexivity.
  - destruct IH as [H|(k & s' & -> & Hk)].
    + left. cbn [no_dot]. now rewrite E, H.
    + right. exists (String c k), s'. split; [reflexivity|]. cbn [no_dot]. now rewrite E, Hk.
Qed.

(** [_get_nested_field] resolves a path one component at a time. *)
Lemma get_nested_field_step (d : dict) (k s : string) :
  no_dot k = true ->
  _get_nested_field (JDict d) (k ++ "." ++ s)
  = match dict_get d k with
    | Some v => _get_nested_field v s
    | None => None
    end.
Proof.
  intros H. unfold _get_nested_field. rewrite (split_dot_app k s H).
  cbn [walk_fields]. now destruct (dict_get d k).
Qed.

Lemma get_nested_field_leaf (d : dict) (k : string) :
  no_dot k = true ->
  _get_nested_field (JDict d) k
  = match dict_get d k with
    | Some v => if isinstance_int_float v then Some v else None
    | None => None
    end.
Proof.
  intros H. unfold _get_nested_field. rewrite (split_dot_no_dot k H).
  cbn [walk_fields]. now destruct (dict_get d k).
Qed.

Lemma get_nested_field_not_dict (v : json) (s : string) :
  is_dict v = false -> _get_nested_field v s = None.
Proof.
  intros H. unfold _get_nested_field.
  destruct (split_dot s) as [|h t] eqn:E; [now apply split_dot_nonempty in E|].
  destruct v; try reflexivity; discriminate H.
Qed.

Lemma dict_get_lookup (d : dict) (k : string) : dict_get d k = lookup d k.
Proof. induction d as [|[k' v] d IH]; simpl; [reflexivity|now rewrite IH]. Qed.

(** An entry put in front under a key that is not in the object. *)
Lemma get_nested_field_skip (key : string) (value : json) (rest : dict) (s : string) (x : json) :
  has_key rest key = false ->
  _get_nested_field (JDict rest) s = Some x ->
  _get_nested_field (JDict ((key, value) :: rest)) s = Some x.
Proof.
  intros Hk. unfold _get_nested_field.
  destruct (split_dot s) as [|h t] eqn:E; [now apply split_dot_nonempty in E|].
  cbn [walk_fields dict_get].
  destruct (dict_get rest h) as [v|] eqn:G; [|discriminate].
  destruct (String.eqb_spec h key) as [->|_]; [|trivial].
  unfold has_key in Hk. rewrite <- dict_get_lookup, G in Hk. discriminate Hk.
Qed.

Lemma plain_key_spec (k : string) :
  plain_key k = true -> k <> EmptyString /\ no_dot k = true.
Proof. destruct k; [discriminate|]. intros H. split; [discriminate|exact H]. Qed.

Lemma field_name_of_nested (prefix key s : string) :
  key <> EmptyString ->
  field_name_of (field_name_of prefix key) s = field_name_of prefix (key ++ "." ++ s).
Proof.
  intros Hk. destruct prefix as [|c r].
  - cbn [field_name_of]. destruct key; [now elim Hk|reflexivity].
  - cbn [field_name_of].
    change (String c r ++ "." ++ key)%string with (String c (r ++ "." ++ key)).
    cbn [field_name_of].
    change (String c (r ++ "." ++ key))%string with (String c r ++ ("." ++ key))%string.
    now rewrite !string_app_assoc.
Qed.

Lemma field_name_of_inj (prefix s1 s2 : string) :
  field_name_of prefix s1 = field_name_of prefix s2 -> s1 = s2.
Proof.
  destruct prefix as [|c r]; cbn [field_name_of]; [trivial|].
  intros H. apply string_app_inj_l in H. now apply string_app_inj_l in H.
Qed.

Lemma get_numerical_fields_cons (key : string) (value : json) (rest : dict) (prefix : string) :
  _get_numerical_fields (JDict ((key, value) :: rest)) prefix
  = (match value with
     | JDict _ => _get_numerical_fields value (field_name_of prefix key)
     | _ => if isinstance_int_float value then field_name_of prefix key :: nil else []
     end) ++ _get_numerical_fields (JDict rest) prefix.
Proof. reflexivity. Qed.

Lemma plain_keys_cons (key : string) (value : json) (rest : dict) :
  plain_keys (JDict ((key, value) :: rest))
  = plain_key key && negb (has_key rest key) && plain_keys value && plain_keys (JDict rest).
Proof. reflexivity. Qed.

Lemma plain_keys_cons_inv (key : string) (value : json) (rest : dict) :
  plain_keys (JDict ((key, value) :: rest)) = true ->
  key <> EmptyString /\ no_dot key = true /\ has_key rest key = false /\
  plain_keys value = true /\ plain_keys (JDict rest) = true.
Proof.
  rewrite plain_keys_cons. intros H.
  apply andb_prop in H. destruct H as [H Hr].
  apply andb_prop in H. destruct H as [H Hv].
  apply andb_prop in H. destruct H as [Hk Hn].
  apply negb_true_iff in Hn. destruct (plain_key_spec key Hk) as [Hne Hnd].
  repeat split; assumption.
Qed.

(** The names listed for one entry of an object start with its key. *)
Lemma entry_fields_sound (prefix key : string) (value : json) (rest : dict) (f : string) :
  key <> EmptyString -> no_dot key = true ->
  (forall prefix' f', In f' (_get_numerical_fields value prefix') ->
                      exists s x, f' = field_name_of prefix' s /\
                                  _get_nested_field value s = Some x) ->
  In f (match value with
        | JDict _ => _get_numerical_fields value (field_name_of prefix key)
        | _ => if isinstance_int_float value then field_name_of prefix key :: nil else []
        end) ->
  exists s x, f = field_name_of prefix s /\
              _get_nested_field (JDict ((key, value) :: rest)) s = Some x /\
              (s = key \/ exists s', s = (key ++ "." ++ s')%string).
Proof.
  intros Hne Hnd IH Hin.
  assert (Hleaf : isinstance_int_float value = true -> f = field_name_of prefix key ->
                  exists s x, f = field_name_of prefix s /\
                              _get_nested_field (JDict ((key, value) :: rest)) s = Some x /\
                              (s = key \/ exists s', s = (key ++ "." ++ s')%string)).
  { intros Hnum ->. exists key, value. split; [reflexivity|]. split; [|now left].
    rewrite (get_nested_field_leaf _ key Hnd). cbn [dict_get].
    now rewrite String.eqb_refl, Hnum. }
  destruct value as [|b|q|str|l|d'];
    try (cbn [isinstance_int_float] in Hin; contradiction);
    try (destruct Hin as [<-|[]]; now apply Hleaf).
  destruct (IH _ _ Hin) as (s' & x & -> & Hx).
  exists (key ++ "." ++ s')%string, x. split; [now apply field_name_of_nested|].
  split; [|right; now exists s'].
  rewrite (get_nested_field_step _ key s' Hnd). cbn [dict_get].
  now rewrite String.eqb_refl.
Qed.

(** Every discovered name is the prefix followed by a path that resolves. *)
Lemma numerical_fields_sound (v : json) :
  plain_keys v = true ->
  forall prefix f,
    In f (_get_numerical_fields v prefix) ->
    exists s x, f = field_name_of prefix s /\ _get_nested_field v s = Some x.
Proof.
  induction v as [|b|q|str|l _|d IH] using json_induction; intros Hp prefix f Hin;
    try contradiction.
  revert Hp prefix f Hin.
  induction IH as [|[key value] rest Hv _ IHrest]; intros Hp prefix f Hin; [contradiction|].
  cbn [snd] in Hv.
  destruct (plain_keys_cons_inv _ _ _ Hp) as (Hne & Hnd & Hk & Hpv & Hpr).
  rewrite get_numerical_fields_cons in Hin. apply in_app_or in Hin.
  destruct Hin as [Hin|Hin].
  - destruct (entry_fields_sound prefix key value rest f Hne Hnd (Hv Hpv) Hin)
      as (s & x & Hf & Hx & _).
    now exists s, x.
  - destruct (IHrest Hpr prefix f Hin) as (s & x & Hf & Hx).
    exists s, x. split; [exact Hf|]. now apply get_nested_field_skip.
Qed.

(** Every path that resolves is discovered. *)
Lemma numerical_fields_complete (v : json) :
  plain_keys v = true ->
  forall prefix s x,
    _get_nested_field v s = Some x ->
    In (field_name_of prefix s) (_get_numerical_fields v prefix).
Proof.
  induction v as [|b|q|str|l _|d IH] using json_induction; intros Hp prefix s x Hx;
    try (rewrite get_nested_field_not_dict in Hx by reflexivity; discriminate Hx).
  revert Hp prefix s x Hx.
  induction IH as [|[key value] rest Hv _ IHrest]; intros Hp prefix s x Hx.
  - exfalso. unfold _get_nested_field in Hx.
    destruct (split_dot s) as [|h t] eqn:E; [now apply split_dot_nonempty in E|].
    discriminate Hx.
  - cbn [snd] in Hv.
    destruct (plain_keys_cons_inv _ _ _ Hp) as (Hne & Hnd & Hk & Hpv & Hpr).
    rewrite get_numerical_fields_cons. apply in_or_app.
    destruct (string_first_dot s) as [Hs|(k & s' & -> & Hkd)].
    + pose proof Hx as Hx'. rewrite (get_nested_field_leaf _ s Hs) in Hx'.
      cbn [dict_get] in Hx'.
      destruct (String.eqb_spec s key) as [->|N].
      * left. destruct (isinstance_int_float value) eqn:Hnum; [|discriminate Hx'].
        destruct value; try discriminate Hnum; now left.
      * right. apply (IHrest Hpr prefix s x).
        now rewrite (get_nested_field_leaf _ s Hs).
    + pose proof Hx as Hx'. rewrite (get_nested_field_step _ k s' Hkd) in Hx'.
      cbn [dict_get] in Hx'.
      destruct (String.eqb_spec k key) as [->|N].
      * left. destruct value as [|b|q|str|l|d'];
          try (rewrite get_nested_field_not_dict in Hx' by reflexivity; discriminate Hx').
        rewrite <- (field_name_of_nested prefix key s' Hne).
        now apply (Hv Hpv _ s' x).
      * right. apply (IHrest Hpr prefix _ x).
        now rewrite (get_nested_field_step _ k s' Hkd).
Qed.

(** No name is discovered twice. *)
Lemma numerical_fields_NoDup (v : json) :
  plain_keys v = true -> forall prefix, NoDup (_get_numerical_fields v prefix).
Proof.
  induction v as [|b|q|str|l _|d IH] using json_induction; intros Hp prefix;
    try constructor.
  revert Hp prefix.
  induction IH as [|[key value] rest Hv _ IHrest]; intros Hp prefix; [constructor|].
  cbn [snd] in Hv.
  destruct (plain_keys_cons_inv _ _ _ Hp) as (Hne & Hnd & Hk & Hpv & Hpr).
  rewrite get_numerical_fields_cons. apply NoDup_app.
  - destruct value; try (cbn [isinstance_int_float]; repeat constructor; intros []).
    now apply Hv.
  - now apply IHrest.
  - intros f Hin Hin'.
    destruct (entry_fields_sound prefix key value rest f Hne Hnd
                                 (numerical_fields_sound value Hpv) Hin)
      as (s & x & Hf & _ & Hs).
    destruct (numerical_fields_sound (JDict rest) Hpr prefix f Hin') as (s2 & x2 & Hf2 & Hx2).
    rewrite Hf in Hf2. apply field_name_of_inj in Hf2. subst s2.
    assert (Hhas : dict_get rest key <> None).
    { destruct Hs as [->|(s' & ->)].
      - rewrite (get_nested_field_leaf _ key Hnd) in Hx2.
        now destruct (dict_get rest key).
      - rewrite (get_nested_field_step _ key s' Hnd) in Hx2.
        now destruct (dict_get rest key). }
    unfold has_key in Hk. rewrite <- dict_get_lookup in Hk.
    now destruct (dict_get rest key).
Qed.

(** X14.  In a record whose keys are plain (not empty, without a dot, each
    once in its object), the names [_get_numerical_fields] lists are exactly
    the paths [_get_nested_field] resolves to a number, and no name is
    listed twice. *)
Theorem X14_discovered_fields_are_the_resolved_paths (entry : dict) :
  plain_keys (JDict entry) = true ->
  NoDup (_get_numerical_fields (JDict entry) "") /\
  forall field,
    In field (_get_numerical_fields (JDict entry) "") <-> resolves entry field = true.
Proof.
  intros Hp. split; [now apply numerical_fields_NoDup|].
  intros field. unfold resolves. split.
  - intros Hin.
    destruct (numerical_fields_sound _ Hp "" field Hin) as (s & x & -> & Hx).
    cbn [field_name_of]. now rewrite Hx.
  - destruct (_get_nested_field (JDict entry) field) as [x|] eqn:Hx; [|discriminate].
    intros _. apply (numerical_fields_complete _ Hp "" field x Hx).
Qed.

Lemma X14_discovered_fields_witness :
  plain_keys (JDict ex_gt_latitude_0) = true /\
  NoDup (_get_numerical_fields (JDict ex_gt_latitude_0) "").
Proof.
  assert (H : plain_keys (JDict ex_gt_latitude_0) = true) by reflexivity.
  split; [exact H|].
  exact (proj1 (X14_discovered_fields_are_the_resolved_paths ex_gt_latitude_0 H)).
Defined.

(** ** The value lists of records with plain keys *)

Lemma flat_map_ext_in {A B : Type} (f g : A -> list B) (l : list A) :
  (forall a, In a l -> f a = g a) -> flat_map f l = flat_map g l.
Proof.
  induction l as [|a l IH]; intros H; simpl; [reflexivity|].
  rewrite (H a (or_introl eq_refl)), IH; [reflexivity|].
  intros b Hb. apply H. now right.
Qed.

Lemma existsb_ext_in {A : Type} (f g : A -> bool) (l : list A) :
  (forall a, In a l -> f a = g a) -> existsb f l = existsb g l.
Proof.
  induction l as [|a l IH]; intros H; simpl; [reflexivity|].
  rewrite (H a (or_introl eq_refl)), IH; [reflexivity|].
  intros b Hb. apply H. now right.
Qed.

(** In a record with plain keys a field is listed exactly when it
    resolves, and then it contributes its value once. *)
Lemma plain_record_fields (entry : dict) (k : string) :
  plain_keys (JDict entry) = true ->
  existsb (String.eqb k) (_get_numerical_fields (JDict entry) "") = resolves entry k /\
  entry_values (_get_numerical_fields (JDict entry) "") entry k = contribution entry k.
Proof.
  intros Hp.
  pose proof (numerical_fields_NoDup _ Hp "") as Hnd.
  destruct (existsb (String.eqb k) (_get_numerical_fields (JDict entry) "")) eqn:E.
  - apply existsb_eqb_true in E.
    destruct (numerical_fields_sound _ Hp "" k E) as (s & x & Hs & Hx).
    cbn [field_name_of] in Hs. subst s. split.
    + unfold resolves. now rewrite Hx.
    + apply entry_values_listed_once. now apply count_occ_NoDup_In.
  - pose proof E as Hnot. apply existsb_eqb_false in Hnot.
    assert (Hr : _get_nested_field (JDict entry) k = None).
    { destruct (_get_nested_field (JDict entry) k) as [x|] eqn:Hx; [|reflexivity].
      elim Hnot. apply (numerical_fields_complete _ Hp "" k x Hx). }
    split.
    + unfold resolves. now rewrite Hr.
    + rewrite (entry_values_absent _ _ _ E). unfold contribution. now rewrite Hr.
Qed.

(** X15.  For ground-truth records with plain keys the collection loops
    compute, for every name: [gt_fields] has the name as a key exactly when
    it resolves in some ground-truth record, and its list holds, in record
    order, the value of each record in which it resolves (so the list of a
    key is never empty); [conv_fields] has the same keys when there is a
    converted record, each with the values of the converted records in
    which the name resolves, and no key otherwise. *)
Theorem X15_collected_value_lists (ground_truth converted : list dict) (field : string) :
  forallb (fun entry => plain_keys (JDict entry)) ground_truth = true ->
  let gt_fields := collect_gt_fields ground_truth in
  lookup gt_fields field
  = (if existsb (fun entry => resolves entry field) ground_truth
     then Some (flat_map (fun entry => contribution entry field) ground_truth)
     else None) /\
  has_values gt_fields field = has_key gt_fields field /\
  lookup (collect_conv_fields gt_fields converted) field
  = (match converted with
     | [] => None
     | _ :: _ =>
         if existsb (fun entry => resolves entry field) ground_truth
         then Some (flat_map (fun entry => contribution entry field) converted)
         else None
     end) /\
  listed_once ground_truth = true.
Proof.
  intros Hp gt_fields. rewrite forallb_forall in Hp.
  assert (Hgt : forall k,
             lookup (collect_gt_fields ground_truth) k
             = if existsb (fun entry => resolves entry k) ground_truth
               then Some (flat_map (fun entry => contribution entry k) ground_truth)
               else None).
  { intros k. unfold collect_gt_fields. rewrite lookup_collected.
    change (has_key (@nil (string * list Qc)) k) with false.
    change (get_list (@nil (string * list Qc)) k) with (@nil Qc).
    cbn [orb app].
    rewrite (existsb_ext_in _ (fun entry => resolves entry k) ground_truth)
      by (intros e He; apply (plain_record_fields e k (Hp e He))).
    rewrite (flat_map_ext_in _ (fun entry => contribution entry k) ground_truth)
      by (intros e He; apply (plain_record_fields e k (Hp e He))).
    reflexivity. }
  assert (Hvalues : forall k,
             existsb (fun entry => resolves entry k) ground_truth = true ->
             flat_map (fun entry => contribution entry k) ground_truth <> []).
  { intros k E. apply existsb_exists in E. destruct E as (e & He & Hr).
    intros Hnil. assert (Hin : In (match _get_nested_field (JDict e) k with
                                   | Some value => num_of value | None => 0 end)
                                  (flat_map (fun entry => contribution entry k) ground_truth)).
    { apply in_flat_map. exists e. split; [exact He|].
      unfold contribution. unfold resolves in Hr.
      destruct (_get_nested_field (JDict e) k); [now left|discriminate Hr]. }
    rewrite Hnil in Hin. contradiction. }
  split; [apply Hgt|]. split; [|split].
  - unfold has_values, has_key, gt_fields. rewrite Hgt.
    destruct (existsb (fun entry => resolves entry field) ground_truth) eqn:E; [|reflexivity].
    pose proof (Hvalues field E) as Hne.
    now destruct (flat_map (fun entry => contribution entry field) ground_truth).
  - pose proof (NoDup_keys_collect_gt_fields ground_truth) as Hnd.
    assert (Hkey : existsb (String.eqb field) (keys gt_fields)
                   = existsb (fun entry => resolves entry field) ground_truth).
    { destruct (existsb (fun entry => resolves entry field) ground_truth) eqn:E.
      - apply existsb_eqb_true. apply lookup_has_key_In. unfold has_key, gt_fields.
        now rewrite Hgt, E.
      - apply existsb_eqb_false. intros Hin. apply lookup_has_key_In in Hin.
        unfold has_key, gt_fields in Hin. rewrite Hgt, E in Hin. discriminate Hin. }
    unfold collect_conv_fields. rewrite lookup_collected.
    change (has_key (@nil (string * list Qc)) field) with false.
    change (get_list (@nil (string * list Qc)) field) with (@nil Qc).
    cbn [orb app].
    destruct converted as [|c converted]; [reflexivity|].
    cbn [existsb]. rewrite Hkey.
    destruct (existsb (fun entry => resolves entry field) ground_truth) eqn:E.
    + cbn [orb]. f_equal. apply flat_map_ext_in. intros e _.
      apply entry_values_listed_once. apply count_occ_NoDup_In; [exact Hnd|].
      now apply existsb_eqb_true.
    + cbn [orb].
      assert (Hno : existsb (fun _ : dict => false) converted = false).
      { clear. induction converted as [|a l IH]; [reflexivity|exact IH]. }
      now rewrite Hno.
  - unfold listed_once. apply forallb_forall. intros e He.
    apply forallb_forall. intros k _.
    destruct (_get_nested_field (JDict e) k) as [x|] eqn:Hx; [|reflexivity].
    apply Nat.eqb_eq. apply count_occ_NoDup_In.
    + apply numerical_fields_NoDup. now apply Hp.
    + apply (numerical_fields_complete _ (Hp e He) "" k x Hx).
Qed.

Lemma X15_collected_value_lists_witness :
  forallb (fun entry => plain_keys (JDict entry)) ex_conv_gnss = true /\
  listed_once ex_conv_gnss = true.
Proof.
  assert (H : forallb (fun entry => plain_keys (JDict entry)) ex_conv_gnss = true)
    by reflexivity.
  split; [exact H|].
  exact (proj2 (proj2 (proj2 (X15_collected_value_lists
                                ex_conv_gnss ex_conv_gnss "position_lla.latitude_deg" H)))).
Defined.

(** ** When the entropy ratio is defined *)

Lemma bin_count_ge_2 (n : nat) : (2 <= bin_count n)%nat <-> (10 <= n)%nat.
Proof.
  unfold bin_count. split.
  - intros H. destruct (Nat.lt_ge_cases n 10) as [L|G]; [|exact G].
    assert (n / 5 < 2)%nat by (apply Nat.Div0.div_lt_upper_bound; lia). lia.
  - intros H. assert (2 <= n / 5)%nat by (apply Nat.div_le_lower_bound; lia). lia.
Qed.

Section EntropyDefined.

Import Information.
Local Open Scope R_scope.



End EntropyDefined.

(** ** The lists aligned for the mutual information *)

Lemma align_values_invariant (ground_truth converted : list dict)
      (gt_values conv_values : list Qc) :
  forall i,
    let aligned := align_values ground_truth converted gt_values conv_values i in
    length (fst aligned) = length (snd aligned) /\
    (length (fst aligned) <= length ground_truth)%nat /\
    (length (fst aligned) <= length gt_values - i)%nat /\
    incl (fst aligned) gt_values /\
    incl (snd aligned) conv_values.
Proof.
  induction ground_truth as [|gt_entry rest IH]; intros i.
  - cbn. repeat split; try lia; intros x [].
  - cbn [align_values].
    destruct (IH (S i)) as (Hlen & Hle & Hlev & Hig & Hic).
    destruct (align_values rest converted gt_values conv_values (S i)) as [ag ac].
    cbn [fst snd] in *.
    assert (Hkeep : length ag = length ac /\ (length ag <= length (gt_entry :: rest))%nat /\
                    (length ag <= length gt_values - i)%nat /\
                    incl ag gt_values /\ incl ac conv_values).
    { cbn [length]. repeat split; try assumption; lia. }
    destruct (nth_error gt_values i) as [gv|] eqn:Eg; [|exact Hkeep].
    destruct (scan_closest_idx (time_unix gt_entry) converted (length conv_values) 0 None Inf)
      as [[closest_idx|] min_time_diff]; [|exact Hkeep].
    destruct (ext_lt min_time_diff tol_0_1); [|exact Hkeep].
    destruct (nth_error conv_values closest_idx) as [cv|] eqn:Ec; [|exact Hkeep].
    cbn [fst snd length].
    assert (Hi : (i < length gt_values)%nat).
    { apply nth_error_Some. now rewrite Eg. }
    repeat split; try lia.
    + intros x [<-|Hx]; [now apply (nth_error_In _ _ Eg)|now apply Hig].
    + intros x [<-|Hx]; [now apply (nth_error_In _ _ Ec)|now apply Hic].
Qed.

(** X17.  The two lists aligned for the mutual information always have the
    same length, at most the number of ground-truth records and of
    ground-truth values; they hold values of the field only.  With fewer
    than 10 ground-truth records or values, or without converted records,
    the mutual information of the field is [None]. *)
Theorem X17_aligned_lists_for_mutual_information
        (mutual_information : list Qc -> list Qc -> nat -> R)
        (ground_truth converted : list dict) (gt_values conv_values : list Qc) :
  let aligned := align_values ground_truth converted gt_values conv_values 0 in
  length (fst aligned) = length (snd aligned) /\
  (length (fst aligned) <= Nat.min (length ground_truth) (length gt_values))%nat /\
  incl (fst aligned) gt_values /\
  incl (snd aligned) conv_values /\
  ((length ground_truth < 10)%nat \/ (length gt_values < 10)%nat \/ converted = [] ->
   Information.mutual_info_of mutual_information (fst aligned) (snd aligned) = None).
Proof.
  intros aligned.
  destruct (align_values_invariant ground_truth converted gt_values conv_values 0)
    as (Hlen & Hle & Hlev & Hig & Hic).
  fold aligned in Hlen, Hle, Hlev, Hig, Hic.
  split; [exact Hlen|]. split; [lia|]. split; [exact Hig|]. split; [exact Hic|].
  intros Hsmall.
  assert (Hempty : converted = [] -> fst aligned = []).
  { intros ->. unfold aligned. clear.
    generalize 0%nat. induction ground_truth as [|e rest IH]; intros i; [reflexivity|].
    cbn [align_values]. specialize (IH (S i)).
    destruct (align_values rest [] gt_values conv_values (S i)) as [ag ac].
    cbn [fst] in *. destruct (nth_error gt_values i); exact IH. }
  unfold Information.mutual_info_of.
  destruct (fst aligned) as [|g ag] eqn:Eg; [reflexivity|].
  destruct (snd aligned) as [|c ac] eqn:Ec; [reflexivity|].
  destruct (Nat.ltb_spec 1 (bin_count (length (g :: ag)))) as [L|_]; [|reflexivity].
  exfalso.
  assert (H2 : (2 <= bin_count (length (g :: ag)))%nat) by lia.
  apply bin_count_ge_2 in H2.
  destruct Hsmall as [H|[H|H]]; [lia|lia|].
  specialize (Hempty H). discriminate Hempty.
Qed.

(** ** The histogram counts every value *)





Section HistogramTotal.

Import Information.
Local Open Scope R_scope.


End HistogramTotal.


(** ** The summary of the numerical field accuracy *)

Section SummaryFacts.

Variable np : numpy.







End SummaryFacts.


(** ** Arguments of the numpy calls *)

Lemma clamp_range (d : Qc) :
  0 <= Qcabs (Qcmax (Qcmin d 1) (- (1))) /\ Qcabs (Qcmax (Qcmin d 1) (- (1))) <= 1.
Proof.
  split; [apply Qcabs_nonneg|]. apply Qcabs_Qcle_condition.
  destruct (Qcmax_cases (Qcmin d 1) (- (1))) as ([E|E] & _ & Hlow).
  - split; [exact Hlow|]. rewrite E. apply (Qcmin_cases d 1).
  - split; [exact Hlow|]. rewrite E. discriminate.
Qed.

Lemma sum_of_squares_nonneg (a b c : Qc) : 0 <= square a + square b + square c.
Proof.
  replace 0 with (0 + 0 + 0) by ring.
  repeat apply Qcplus_le_compat; apply square_nonneg.
Qed.

(** X20.  The older calculators keep their numpy calls inside the domain
    of the functions: every position and acceleration sample is [np.sqrt]
    of a non-negative number, and every orientation sample is
    [np.degrees(2 * np.arccos(a))] for some [a] in [0, 1], whatever the
    quaternions in the records (the dot product is clamped). *)
Theorem X20_numpy_calls_stay_in_domain (np : numpy) (gt conv : list dict) (sample : Qc) :
  (In sample (collect (position_error_sample np conv) gt) ->
   exists a, 0 <= a /\ sample = np_sqrt np a) /\
  (In sample (collect (acceleration_error_sample np conv) gt) ->
   exists a, 0 <= a /\ sample = np_sqrt np a) /\
  (In sample (collect (orientation_error_sample np conv) gt) ->
   exists a, 0 <= a /\ a <= 1 /\ sample = np_degrees np (Q2Qc 2 * np_arccos np a)).
Proof.
  split; [|split]; intros H; apply collect_In_inv in H; destruct H as (g & _ & Hg).
  - unfold position_error_sample in Hg.
    destruct (accepted tol_1_0 (find_closest (time_unix g) conv)) as [c|]; [|discriminate].
    destruct (get_group g "position_lla") as [gp|]; [|discriminate].
    destruct (get_group c "position_lla") as [cp|]; [|discriminate].
    injection Hg as <-. eexists. split; [|reflexivity]. apply sum_of_squares_nonneg.
  - unfold acceleration_error_sample in Hg.
    destruct (accepted tol_0_1 (find_closest (time_unix g) conv)) as [c|]; [|discriminate].
    destruct (get_group g "linear_acceleration") as [ga|]; [|discriminate].
    destruct (get_group c "linear_acceleration") as [ca|]; [|discriminate].
    injection Hg as <-. eexists. split; [|reflexivity]. apply sum_of_squares_nonneg.
  - unfold orientation_error_sample in Hg.
    destruct (accepted tol_0_1 (find_closest (time_unix g) conv)) as [c|]; [|discriminate].
    destruct (get_group g "orientation") as [go|]; [|discriminate].
    destruct (get_group c "orientation") as [co|]; [|discriminate].
    injection Hg as <-. eexists. split; [|split; [|reflexivity]]; apply clamp_range.
Qed.

(** ** The coordinate conversion check *)

Section CoordinateFacts.

Import Coordinates.
Local Open Scope R_scope.

(** The sample depends on the ground-truth record through its view only. *)
Lemma coordinate_error_sample_view (conv : list dict) (g g' : dict) :
  ground_truth_view g = ground_truth_view g' ->
  coordinate_error_sample conv g = coordinate_error_sample conv g'.
Proof.
  unfold ground_truth_view. intros H. injection H as Ht _ _ Hl He.
  unfold coordinate_error_sample. rewrite Ht.
  destruct (accepted tol_0_1 (find_closest (time_unix g') conv)) as [c|]; [|reflexivity].
  destruct (nonempty_group g "position_lla"), (nonempty_group g' "position_lla");
    try discriminate Hl;
    destruct (nonempty_group g "position_ecef"), (nonempty_group g' "position_ecef");
    try discriminate He; reflexivity.
Qed.

Lemma has_both_coords_view (gt gt' : list dict) :
  map ground_truth_view gt = map ground_truth_view gt' ->
  has_both_coords gt = has_both_coords gt'.
Proof.
  revert gt'. induction gt as [|g gt IH]; intros [|g' gt'] H; try discriminate H;
    [reflexivity|].
  cbn [map] in H. injection H as Ht Hkl Hke _ _ Hrest.
  unfold has_both_coords. cbn [existsb]. rewrite Hkl, Hke. f_equal. now apply IH.
Qed.

(** X21.  The coordinate check never reads the coordinates of the ground
    truth: two ground-truth lists whose records agree on the timestamp, on
    the presence of the two position keys and on whether the two groups are
    non-empty give the same result (the same entry, no entry, or the same
    exception) against any converted list. *)
Theorem X21_ground_truth_coordinates_are_not_read (gt gt' conv : list dict) :
  map ground_truth_view gt = map ground_truth_view gt' ->
  coordinate_errors conv gt = coordinate_errors conv gt' /\
  coordinate_conversion_error gt conv = coordinate_conversion_error gt' conv.
Proof.
  intros H.
  assert (He : coordinate_errors conv gt = coordinate_errors conv gt').
  { revert gt' H. induction gt as [|g gt IH]; intros [|g' gt'] H; try discriminate H;
      [reflexivity|].
    cbn [map] in H. injection H as Ht Hkl Hke Hl Hec Hrest.
    cbn [coordinate_errors].
    rewrite (coordinate_error_sample_view conv g g')
      by (unfold ground_truth_view; now rewrite Ht, Hkl, Hke, Hl, Hec).
    now rewrite (IH gt' Hrest). }
  split; [exact He|].
  unfold coordinate_conversion_error. now rewrite (has_both_coords_view gt gt' H), He.
Qed.

Lemma ecef_error_spec (expected : R * R * R) (x y z : R) :
  0 <= ecef_error expected x y z /\
  (ecef_error expected x y z = 0 <-> expected = (x, y, z)).
Proof.
  destruct expected as [[ex ey] ez]. unfold ecef_error.
  pose proof (pow2_ge_0 (ex - x)) as Hx.
  pose proof (pow2_ge_0 (ey - y)) as Hy.
  pose proof (pow2_ge_0 (ez - z)) as Hz.
  assert (Hs : 0 <= (ex - x) ^ 2 + (ey - y) ^ 2 + (ez - z) ^ 2) by lra.
  assert (Hroot : forall a, a ^ 2 = 0 -> a = 0).
  { intros a Ha. destruct (Req_dec a 0) as [E|N]; [exact E|].
    elim (pow_nonzero a 2 N). exact Ha. }
  split; [apply sqrt_pos|]. split.
  - intros H. apply (sqrt_eq_0 _ Hs) in H.
    assert (Ex : ex - x = 0) by (apply Hroot; lra).
    assert (Ey : ey - y = 0) by (apply Hroot; lra).
    assert (Ez : ez - z = 0) by (apply Hroot; lra).
    f_equal; [f_equal|]; lra.
  - intros E. injection E as -> -> ->.
    replace ((x - x) ^ 2 + (y - y) ^ 2 + (z - z) ^ 2) with 0 by ring. apply sqrt_0.
Qed.

(** X22.  What the check appends for a ground-truth record is the
    distance between the ECEF position of the matched converted record and
    the WGS-84 image of that record's own LLA position: it is never
    negative, and zero exactly when the two agree.  The check raises only
    when the matched record's ECEF group has the keys [x], [y] and [z] and
    one of them holds [null]. *)
Theorem X22_coordinate_error_compares_converted_with_itself (conv : list dict) (g : dict) :
  match coordinate_error_sample conv g with
  | Value (Some error) =>
      0 <= error /\
      exists closest conv_lla conv_ecef expected x y z,
        accepted tol_0_1 (find_closest (time_unix g) conv) = Some closest /\
        nonempty_group closest "position_lla" = Some conv_lla /\
        nonempty_group closest "position_ecef" = Some conv_ecef /\
        Geodesy._lla_to_ecef (get_coordinate conv_lla "latitude_deg")
                             (get_coordinate conv_lla "longitude_deg")
                             (get_coordinate conv_lla "altitude_m") = Some expected /\
        get_coordinate conv_ecef "x" = Some x /\
        get_coordinate conv_ecef "y" = Some y /\
        get_coordinate conv_ecef "z" = Some z /\
        (error = 0 <-> expected = (x, y, z))
  | Value None => True
  | TypeError =>
      exists closest conv_ecef,
        accepted tol_0_1 (find_closest (time_unix g) conv) = Some closest /\
        nonempty_group closest "position_ecef" = Some conv_ecef /\
        has_key conv_ecef "x" = true /\ has_key conv_ecef "y" = true /\
        has_key conv_ecef "z" = true /\
        (get_coordinate conv_ecef "x" = None \/ get_coordinate conv_ecef "y" = None \/
         get_coordinate conv_ecef "z" = None)
  end.
Proof.
  unfold coordinate_error_sample.
  destruct (accepted tol_0_1 (find_closest (time_unix g) conv)) as [c|] eqn:Ec; [|exact I].
  destruct (nonempty_group g "position_lla"); [|exact I].
  destruct (nonempty_group g "position_ecef"); [|exact I].
  destruct (nonempty_group c "position_lla") as [cl|] eqn:Ecl; [|exact I].
  destruct (nonempty_group c "position_ecef") as [ce|] eqn:Ece; [|exact I].
  destruct (Geodesy._lla_to_ecef (get_coordinate cl "latitude_deg")
                                 (get_coordinate cl "longitude_deg")
                                 (get_coordinate cl "altitude_m")) as [expected|] eqn:Ex;
    [|exact I].
  destruct (has_key ce "x") eqn:Hx; [|exact I].
  destruct (has_key ce "y") eqn:Hy; [|exact I].
  destruct (has_key ce "z") eqn:Hz; [|exact I].
  cbn [andb].
  assert (Hraise : get_coordinate ce "x" = None \/ get_coordinate ce "y" = None \/
                   get_coordinate ce "z" = None ->
                   exists closest conv_ecef,
                     Some c = Some closest /\
                     nonempty_group closest "position_ecef" = Some conv_ecef /\
                     has_key conv_ecef "x" = true /\ has_key conv_ecef "y" = true /\
                     has_key conv_ecef "z" = true /\
                     (get_coordinate conv_ecef "x" = None \/
                      get_coordinate conv_ecef "y" = None \/
                      get_coordinate conv_ecef "z" = None)).
  { intros H. exists c, ce. repeat split; assumption. }
  destruct (get_coordinate ce "x") as [x|] eqn:Gx; [|apply Hraise; now left].
  destruct (get_coordinate ce "y") as [y|] eqn:Gy; [|apply Hraise; right; now left].
  destruct (get_coordinate ce "z") as [z|] eqn:Gz; [|apply Hraise; right; now right].
  destruct (ecef_error_spec expected x y z) as [Hpos Hzero].
  split; [exact Hpos|].
  exists c, cl, ce, expected, x, y, z.
  split; [reflexivity|]. split; [exact Ecl|]. split; [exact Ece|].
  split; [exact Ex|]. split; [exact Gx|]. split; [exact Gy|].
  split; [exact Gz|]. exact Hzero.
Qed.

End CoordinateFacts.

Lemma X21_ground_truth_coordinates_witness :
  map Coordinates.ground_truth_view (ex_gnss_both (qnum 0 1) (qnum 0 1) :: nil)
  = map Coordinates.ground_truth_view (ex_gnss_both (qnum 22 1) (qnum 5 1) :: nil) /\
  Coordinates.coordinate_conversion_error
    (ex_gnss_both (qnum 0 1) (qnum 0 1) :: nil) (ex_gnss_both (qnum 22 1) (qnum 5 1) :: nil)
  = Coordinates.coordinate_conversion_error
      (ex_gnss_both (qnum 22 1) (qnum 5 1) :: nil) (ex_gnss_both (qnum 22 1) (qnum 5 1) :: nil).
Proof.
  assert (H : map Coordinates.ground_truth_view (ex_gnss_both (qnum 0 1) (qnum 0 1) :: nil)
              = map Coordinates.ground_truth_view (ex_gnss_both (qnum 22 1) (qnum 5 1) :: nil))
    by reflexivity.
  split; [exact H|].
  exact (proj2 (X21_ground_truth_coordinates_are_not_read _ _ _ H)).
Defined.
